(** * AutoCoder Dashboard: a model of [src/App.jsx] and its contract

    The dashboard is one React component.  Its state is a handful of
    [useState] cells, its persistence is two [localStorage] keys, and its
    only wire format is JSON.  This development embeds

    - the configuration resolver [getDefaultApiBase],
    - the state cells of [App], the mount-time effects and the handlers
      ([submitFeature], Set, Clear, View, Download, Copy, Ping Backend),
    - [downloadResult], [PrettyJSON] and the Latest Result panel,
    - the parts of the JavaScript platform the component relies on:
      [JSON.stringify] (plain and indented) / [JSON.parse],
      [String.prototype.includes],
      the regular expression [/\/$/], [localStorage], exceptions.

    Strings are JavaScript strings held as their UTF-8 bytes (a lone
    surrogate as the three bytes of its code point).  Numbers are
    IEEE doubles in JavaScript; the model does not compute with doubles but
    takes the engine's number formatting and number reading as an interface
    ([Engine]) and keeps the special values that [JSON.parse] can produce
    (negative zero, the two infinities) as constructors of their own. *)

From Stdlib Require Import ZArith List Ascii String Bool Lia.
From Stdlib Require Import DecimalString DecimalZ.
From stdpp Require Import base option list gmap strings.

Set Warnings "-register-all".

(** ** Exceptions and completions *)

(** An [Error] object as far as the component can observe it: through
    [String(err)], i.e. [Error.prototype.toString]. *)
Record exn := mkExn { exn_name : string; exn_message : string }.

Definition String_of_exn (e : exn) : string :=
  if String.eqb (exn_name e) "" then exn_message e
  else if String.eqb (exn_message e) "" then exn_name e
  else exn_name e +:+ ": " +:+ exn_message e.

(** The outcome of evaluating something that may throw. *)
Inductive completion (A : Type) : Type :=
| Normal (a : A)
| Throw (e : exn).
Arguments Normal {A} a.
Arguments Throw {A} e.

Definition bind {A B} (c : completion A) (k : A -> completion B) : completion B :=
  match c with
  | Normal a => k a
  | Throw e => Throw e
  end.

Notation "'let*' x := c 'in' k" := (bind c (fun x => k))
  (at level 10, x name, c at level 100, k at level 200).

(** [try { c } catch (e) { h e }] *)
Definition try_catch {A} (c : completion A) (h : exn -> completion A) : completion A :=
  match c with
  | Normal a => Normal a
  | Throw e => h e
  end.

(** ** Strings *)

Definition quote_char : ascii := "034"%char.
Definition backslash_char : ascii := "092"%char.

(** [hay.includes(needle)] *)
Fixpoint includes (needle hay : string) : bool :=
  String.prefix needle hay ||
  match hay with
  | EmptyString => false
  | String _ rest => includes needle rest
  end.

(** [s.replace(/\/$/, '')]: the pattern has no [m] flag, so [$] matches at
    the end of the input only, and at most one slash is removed. *)
Fixpoint replace_trailing_slash (s : string) : string :=
  match s with
  | EmptyString => EmptyString
  | String c EmptyString => if Ascii.eqb c "/" then EmptyString else s
  | String c rest => String c (replace_trailing_slash rest)
  end.

(** ** Numbers and JSON values *)

Section Model.

(** The finite doubles other than negative zero, as the engine holds them. *)
Context {finite : Type}.

Inductive number : Type :=
| NFinite (f : finite)
| NNegZero
| NPosInf
| NNegInf.

(** The values that [JSON.parse] produces and that the component itself
    builds from them.  An object is its own properties in property order
    (the order [JSON.stringify] and [Object.keys] enumerate them in). *)
Inductive jsval : Type :=
| VNull
| VBool (b : bool)
| VNum (n : number)
| VStr (s : string)
| VArr (xs : list jsval)
| VObj (props : list (string * jsval)).

(** What the component needs from the JavaScript engine and cannot be
    written down without IEEE arithmetic or engine-specific text. *)
Class Engine := {
  (** the number [+0] *)
  Number_zero : finite;
  (** [Number::toString] on a finite number other than [-0] *)
  Number_toString : finite -> string;
  (** the value of a JSON number token; [None] when the token does not
      match the JSON number grammar *)
  JSON_number : string -> option number;
  (** [new Date(t).toISOString()] *)
  toISOString : finite -> string;
  (** the [SyntaxError] that [JSON.parse] (or [Response.json]) throws on a
      text that is not JSON *)
  json_syntax_error : string -> exn;
  (** the [TypeError] thrown by spreading a value that is not iterable *)
  not_iterable_error : exn;
}.

Context {engine : Engine}.

(** *** [JSON.stringify] *)

Definition hex_digit (n : N) : ascii :=
  match n with
  | 0 => "0" | 1 => "1" | 2 => "2" | 3 => "3" | 4 => "4" | 5 => "5" | 6 => "6"
  | 7 => "7" | 8 => "8" | 9 => "9" | 10 => "a" | 11 => "b" | 12 => "c"
  | 13 => "d" | 14 => "e" | _ => "f"
  end%N%char.

(** One byte inside a JSON string literal ([QuoteJSONString]): the quote,
    the backslash and the control characters are escaped. *)
Definition quote_unit (c : ascii) : string :=
  let n := N_of_ascii c in
  if (n =? 34)%N then String backslash_char (String quote_char "")
  else if (n =? 92)%N then String backslash_char (String backslash_char "")
  else if (n =? 8)%N then String backslash_char "b"
  else if (n =? 12)%N then String backslash_char "f"
  else if (n =? 10)%N then String backslash_char "n"
  else if (n =? 13)%N then String backslash_char "r"
  else if (n =? 9)%N then String backslash_char "t"
  else if (n <? 32)%N then
    String backslash_char
      (String "u" (String "0" (String "0"
         (String (hex_digit (n / 16)) (String (hex_digit (n mod 16)) "")))))
  else String c "".

Fixpoint quote_units (s : string) : string :=
  match s with
  | EmptyString => EmptyString
  | String c rest => quote_unit c +:+ quote_units rest
  end.

Definition QuoteJSONString (s : string) : string :=
  String quote_char (quote_units s +:+ String quote_char "").

Definition stringify_number (n : number) : string :=
  match n with
  | NFinite f => Number_toString f
  | NNegZero => "0"
  | NPosInf | NNegInf => "null"
  end.

(** [items.join(",")] *)
Fixpoint join_comma (items : list string) : string :=
  match items with
  | [] => ""
  | [x] => x
  | x :: rest => x +:+ "," +:+ join_comma rest
  end.

(** [JSON.stringify(v)] without indentation. *)
Fixpoint JSON_stringify (v : jsval) : string :=
  match v with
  | VNull => "null"
  | VBool true => "true"
  | VBool false => "false"
  | VNum n => stringify_number n
  | VStr s => QuoteJSONString s
  | VArr xs => "[" +:+ join_comma (map JSON_stringify xs) +:+ "]"
  | VObj props =>
      "{" +:+ join_comma
                (map (fun '(k, x) => QuoteJSONString k +:+ ":" +:+ JSON_stringify x) props)
          +:+ "}"
  end.

(** *** [JSON.parse] *)

Definition is_ws (c : ascii) : bool :=
  let n := N_of_ascii c in
  ((n =? 32) || (n =? 9) || (n =? 10) || (n =? 13))%N.

Fixpoint skip_ws (s : string) : string :=
  match s with
  | EmptyString => EmptyString
  | String c rest => if is_ws c then skip_ws rest else s
  end.

Definition digit_val (c : ascii) : option N :=
  let n := N_of_ascii c in
  if ((48 <=? n) && (n <=? 57))%N then Some (n - 48)%N else None.

Definition hex_val (c : ascii) : option N :=
  let n := N_of_ascii c in
  if ((48 <=? n) && (n <=? 57))%N then Some (n - 48)%N
  else if ((97 <=? n) && (n <=? 102))%N then Some (n - 87)%N
  else if ((65 <=? n) && (n <=? 70))%N then Some (n - 55)%N
  else None.

Definition hex4 (a b c d : ascii) : option N :=
  match hex_val a, hex_val b, hex_val c, hex_val d with
  | Some x, Some y, Some z, Some w => Some (((x * 16 + y) * 16 + z) * 16 + w)%N
  | _, _, _, _ => None
  end.

(** The UTF-8 bytes of a code point (a lone surrogate keeps the three-byte
    form, so that no escape is lost). *)
Definition utf8 (cp : N) : string :=
  let byte (n : N) := ascii_of_N n in
  if (cp <? 128)%N then String (byte cp) ""
  else if (cp <? 2048)%N then
    String (byte (192 + cp / 64)%N) (String (byte (128 + cp mod 64)%N) "")
  else if (cp <? 65536)%N then
    String (byte (224 + cp / 4096)%N)
      (String (byte (128 + (cp / 64) mod 64)%N) (String (byte (128 + cp mod 64)%N) ""))
  else
    String (byte (240 + cp / 262144)%N)
      (String (byte (128 + (cp / 4096) mod 64)%N)
         (String (byte (128 + (cp / 64) mod 64)%N) (String (byte (128 + cp mod 64)%N) ""))).

Definition is_high_surrogate (n : N) : bool := ((55296 <=? n) && (n <=? 56319))%N.
Definition is_low_surrogate (n : N) : bool := ((56320 <=? n) && (n <=? 57343))%N.

(** The character that follows a backslash, other than [u]. *)
Definition simple_escape (c : ascii) : option ascii :=
  let n := N_of_ascii c in
  if (n =? 34)%N then Some quote_char
  else if (n =? 92)%N then Some backslash_char
  else if (n =? 47)%N then Some "/"%char
  else if (n =? 98)%N then Some "008"%char
  else if (n =? 102)%N then Some "012"%char
  else if (n =? 110)%N then Some "010"%char
  else if (n =? 114)%N then Some "013"%char
  else if (n =? 116)%N then Some "009"%char
  else None.

Definition push (pre : string) (r : option (string * string)) : option (string * string) :=
  match r with
  | Some (s, rest) => Some (pre +:+ s, rest)
  | None => None
  end.

(** The characters of a string literal, after its opening quote, up to and
    including the closing quote. *)
Fixpoint parse_chars (s : string) : option (string * string) :=
  match s with
  | EmptyString => None
  | String c r =>
      if Ascii.eqb c quote_char then Some (EmptyString, r)
      else if Ascii.eqb c backslash_char then
        match r with
        | EmptyString => None
        | String e r1 =>
            match simple_escape e with
            | Some c' => push (String c' "") (parse_chars r1)
            | None =>
                if Ascii.eqb e "u" then
                  match r1 with
                  | String h1 (String h2 (String h3 (String h4 r2))) =>
                      match hex4 h1 h2 h3 h4 with
                      | None => None
                      | Some hi =>
                          if is_high_surrogate hi then
                            (* a following low-surrogate escape completes the pair *)
                            match r2 with
                            | String b (String u (String l1 (String l2 (String l3 (String l4 r3))))) =>
                                match hex4 l1 l2 l3 l4 with
                                | Some lo =>
                                    if Ascii.eqb b backslash_char && Ascii.eqb u "u"
                                       && is_low_surrogate lo
                                    then push (utf8 (65536 + (hi - 55296) * 1024 + (lo - 56320))%N)
                                              (parse_chars r3)
                                    else push (utf8 hi) (parse_chars r2)
                                | None => push (utf8 hi) (parse_chars r2)
                                end
                            | _ => push (utf8 hi) (parse_chars r2)
                            end
                          else push (utf8 hi) (parse_chars r2)
                      end
                  | _ => None
                  end
                else None
            end
        end
      else if (N_of_ascii c <? 32)%N then None
      else push (String c "") (parse_chars r)
  end.

(** The characters a number token is made of. *)
Definition is_num_char (c : ascii) : bool :=
  let n := N_of_ascii c in
  ((48 <=? n) && (n <=? 57) || (n =? 45) || (n =? 43) || (n =? 46)
   || (n =? 101) || (n =? 69))%N.

Fixpoint span_num (s : string) : string * string :=
  match s with
  | EmptyString => (EmptyString, EmptyString)
  | String c rest =>
      if is_num_char c then let '(tok, r) := span_num rest in (String c tok, r)
      else (EmptyString, s)
  end.

(** The value of a string of decimal digits. *)
Fixpoint digits_val (s : string) (acc : N) : option N :=
  match s with
  | EmptyString => Some acc
  | String c rest =>
      match digit_val c with
      | Some d => digits_val rest (acc * 10 + d)%N
      | None => None
      end
  end.

Definition decimal_of_N (n : N) : string :=
  NilZero.string_of_uint (N.to_uint n).

(** Property keys that are array indices: the canonical numerals of the
    integers below 2^32 - 1, canonical meaning that printing the value
    gives the key back.  An ordinary object lists them first, in ascending
    order, and the other keys after them in creation order. *)
Definition array_index (k : string) : option N :=
  match digits_val k 0 with
  | Some n =>
      if (n <? 4294967295)%N
      then (if String.eqb (decimal_of_N n) k then Some n else None)
      else None
  | None => None
  end.

Definition has_key (k : string) (props : list (string * jsval)) : bool :=
  existsb (fun '(k', _) => String.eqb k k') props.

Fixpoint replace_value (k : string) (v : jsval) (props : list (string * jsval))
  : list (string * jsval) :=
  match props with
  | [] => []
  | (k', v') :: rest =>
      if String.eqb k k' then (k', v) :: rest else (k', v') :: replace_value k v rest
  end.

Fixpoint insert_index (n : N) (k : string) (v : jsval) (props : list (string * jsval))
  : list (string * jsval) :=
  match props with
  | [] => [(k, v)]
  | (k', v') :: rest =>
      match array_index k' with
      | Some n' => if (n' <? n)%N then (k', v') :: insert_index n k v rest
                   else (k, v) :: props
      | None => (k, v) :: props
      end
  end.

(** [CreateDataProperty(obj, k, v)] on an ordinary object. *)
Definition define_property (props : list (string * jsval)) (kv : string * jsval)
  : list (string * jsval) :=
  let '(k, v) := kv in
  if has_key k props then replace_value k v props
  else match array_index k with
       | Some n => insert_index n k v props
       | None => props ++ [(k, v)]
       end.

Definition build_object (members : list (string * jsval)) : list (string * jsval) :=
  fold_left define_property members [].

Definition cons_fst {A B} (a : A) (r : option (list A * B)) : option (list A * B) :=
  match r with
  | Some (l, rest) => Some (a :: l, rest)
  | None => None
  end.

(** [s] without the prefix [p], when it starts with it. *)
Fixpoint strip_prefix (p s : string) : option string :=
  match p, s with
  | EmptyString, _ => Some s
  | String a p', String b s' => if Ascii.eqb a b then strip_prefix p' s' else None
  | String _ _, EmptyString => None
  end.

(** A recursive-descent reader, one grammar rule per function; each rule is
    given the readers to use for the items nested in it.

    [read_value] reads one value and returns it with the unread rest. *)
Definition read_value
    (elements : string -> option (list jsval * string))
    (members : string -> option (list (string * jsval) * string))
    (s : string) : option (jsval * string) :=
  match skip_ws s with
  | EmptyString => None
  | String c r =>
      if Ascii.eqb c "{" then
        match strip_prefix "}" (skip_ws r) with
        | Some r' => Some (VObj [], r')
        | None =>
            match members r with
            | Some (ms, r') => Some (VObj (build_object ms), r')
            | None => None
            end
        end
      else if Ascii.eqb c "[" then
        match strip_prefix "]" (skip_ws r) with
        | Some r' => Some (VArr [], r')
        | None =>
            match elements r with
            | Some (xs, r') => Some (VArr xs, r')
            | None => None
            end
        end
      else if Ascii.eqb c quote_char then
        match parse_chars r with
        | Some (str, r') => Some (VStr str, r')
        | None => None
        end
      else if Ascii.eqb c "t" then
        match strip_prefix "rue" r with
        | Some r' => Some (VBool true, r')
        | None => None
        end
      else if Ascii.eqb c "f" then
        match strip_prefix "alse" r with
        | Some r' => Some (VBool false, r')
        | None => None
        end
      else if Ascii.eqb c "n" then
        match strip_prefix "ull" r with
        | Some r' => Some (VNull, r')
        | None => None
        end
      else if is_num_char c then
        let '(tok, r') := span_num (String c r) in
        match JSON_number tok with
        | Some n => Some (VNum n, r')
        | None => None
        end
      else None
  end.

(** [read_elements] reads [v , v ... ]], after the bracket has been seen
    not to close at once. *)
Definition read_elements
    (value : string -> option (jsval * string))
    (elements : string -> option (list jsval * string))
    (s : string) : option (list jsval * string) :=
  match value s with
  | None => None
  | Some (v, r) =>
      match strip_prefix "," (skip_ws r) with
      | Some r' => cons_fst v (elements r')
      | None =>
          match strip_prefix "]" (skip_ws r) with
          | Some r' => Some ([v], r')
          | None => None
          end
      end
  end.

(** [read_members] reads ["k" : v , ... }] in the same way. *)
Definition read_members
    (value : string -> option (jsval * string))
    (members : string -> option (list (string * jsval) * string))
    (s : string) : option (list (string * jsval) * string) :=
  match strip_prefix (String quote_char "") (skip_ws s) with
  | None => None
  | Some r =>
      match parse_chars r with
      | None => None
      | Some (k, r1) =>
          match strip_prefix ":" (skip_ws r1) with
          | None => None
          | Some r2 =>
              match value r2 with
              | None => None
              | Some (v, r3) =>
                  match strip_prefix "," (skip_ws r3) with
                  | Some r4 => cons_fst (k, v) (members r4)
                  | None =>
                      match strip_prefix "}" (skip_ws r3) with
                      | Some r4 => Some ([(k, v)], r4)
                      | None => None
                      end
                  end
              end
          end
      end
  end.

(** The rules tied together; each call spends one unit of [fuel]. *)
Fixpoint parse_value (fuel : nat) (s : string) : option (jsval * string) :=
  match fuel with
  | O => None
  | S fuel => read_value (parse_elements fuel) (parse_members fuel) s
  end
with parse_elements (fuel : nat) (s : string) : option (list jsval * string) :=
  match fuel with
  | O => None
  | S fuel => read_elements (parse_value fuel) (parse_elements fuel) s
  end
with parse_members (fuel : nat) (s : string)
  : option (list (string * jsval) * string) :=
  match fuel with
  | O => None
  | S fuel => read_members (parse_value fuel) (parse_members fuel) s
  end.

(** [JSON.parse(text)]: one value, then nothing but white space. *)
Definition JSON_parse (text : string) : completion jsval :=
  match parse_value (S (String.length text)) text with
  | Some (v, rest) =>
      match skip_ws rest with
      | EmptyString => Normal v
      | _ => Throw (json_syntax_error text)
      end
  | None => Throw (json_syntax_error text)
  end.

(** [v.k] for a plain object ([None] is [undefined]). *)
Definition prop (k : string) (v : jsval) : option jsval :=
  match v with
  | VObj props => snd <$> find (fun '(k', _) => String.eqb k k') props
  | _ => None
  end.

(** *** Values that JSON text denotes exactly *)

(** [k] may follow the keys [earlier] in the property order of an ordinary
    object: it is new, and if it is an array index then so are all earlier
    keys, and they are smaller. *)
Definition key_fits (earlier : list string) (k : string) : bool :=
  negb (existsb (String.eqb k) earlier)
  && match array_index k with
     | Some n =>
         forallb (fun k' => match array_index k' with
                            | Some n' => (n' <? n)%N
                            | None => false
                            end) earlier
     | None => true
     end.

(** [key_fits], read as a proposition. *)
Definition fits (earlier : list string) (k : string) : Prop :=
  ~ In k earlier
  /\ forall n, array_index k = Some n ->
     forall k', In k' earlier -> exists n', array_index k' = Some n' /\ (n' < n)%N.

Fixpoint keys_in_order (earlier ks : list string) : bool :=
  match ks with
  | [] => true
  | k :: rest => key_fits earlier k && keys_in_order (earlier ++ [k]) rest
  end.

(** Every number is finite and other than [-0], and every object lists its
    keys in property order (as every object of a running program does). *)
Fixpoint plain_json (v : jsval) : bool :=
  match v with
  | VNull | VBool _ | VStr _ => true
  | VNum (NFinite _) => true
  | VNum _ => false
  | VArr xs => forallb plain_json xs
  | VObj props =>
      keys_in_order [] (map fst props) && forallb (fun '(_, x) => plain_json x) props
  end.

(** The two halves of [plain_json]. *)
Fixpoint in_property_order (v : jsval) : bool :=
  match v with
  | VArr xs => forallb in_property_order xs
  | VObj props =>
      keys_in_order [] (map fst props)
      && forallb (fun '(_, x) => in_property_order x) props
  | _ => true
  end.

Fixpoint numbers_exact (v : jsval) : bool :=
  match v with
  | VNum (NFinite _) => true
  | VNum _ => false
  | VArr xs => forallb numbers_exact xs
  | VObj props => forallb (fun '(_, x) => numbers_exact x) props
  | _ => true
  end.

(** What [JSON.stringify] makes of a value, as a value: an infinity is
    written as [null] and negative zero as [0]. *)
Fixpoint as_json (v : jsval) : jsval :=
  match v with
  | VNum NNegZero => VNum (NFinite Number_zero)
  | VNum NPosInf | VNum NNegInf => VNull
  | VArr xs => VArr (map as_json xs)
  | VObj props => VObj (map (fun '(k, x) => (k, as_json x)) props)
  | _ => v
  end.

(** What ECMAScript promises of number formatting: the text of a finite
    number is a number token, reading it back gives the same number, and
    the text of zero is [0]. *)
Definition all_num_chars (s : string) : bool :=
  forallb is_num_char (list_ascii_of_string s).

Record lawful_engine : Prop := {
  number_read_back :
    forall f : finite, JSON_number (Number_toString f) = Some (NFinite f);
  number_not_empty :
    forall f : finite, Number_toString f <> EmptyString;
  number_token :
    forall f : finite, all_num_chars (Number_toString f) = true;
  zero_text : Number_toString Number_zero = "0";
}.

(** *** Notions used to state that a text is read back *)

(** What may follow a value in a text: anything that does not continue a
    number token. *)
Definition ends_token (rest : string) : Prop :=
  match rest with
  | EmptyString => True
  | String c _ => is_num_char c = false
  end.

(** The first character of a value's text. *)
Definition opens_value (c : ascii) : Prop :=
  is_ws c = false /\ Ascii.eqb "]" c = false /\ Ascii.eqb "}" c = false.

(** The text of one member of an object. *)
Definition member_text (kv : string * jsval) : string :=
  QuoteJSONString kv.1 +:+ ":" +:+ JSON_stringify kv.2.

(** [v] is read back from its own text, whatever follows it. *)
Definition reads_back (v : jsval) : Prop :=
  forall (fuel : nat) (rest : string),
    String.length (JSON_stringify v) <= fuel ->
    ends_token rest ->
    parse_value fuel (JSON_stringify v +:+ rest) = Some (v, rest).

(** ** The host page: configuration sources *)

(** Reading a property either yields [undefined] ([None]), yields a string,
    or runs a getter that throws.  Reading the same property again yields
    the same completion.  [window] and [globalThis] are [None] when [typeof]
    reports ['undefined']. *)
Record window_obj := { __APP_API_BASE : completion (option string) }.
Record env_obj := { VITE_API_BASE : completion (option string) }.
Record process_obj := { env : completion (option env_obj) }.
Record global_obj := { process : completion (option process_obj) }.
Record host := { window : option window_obj; globalThis : option global_obj }.

(** A string in a condition: the empty string is falsy, like [undefined]. *)
Definition truthy (v : option string) : option string :=
  match v with
  | Some s => if String.eqb s "" then None else Some s
  | None => None
  end.

(** Each [try] block evaluates to [Some url] when it returned [url] and to
    [None] when control fell through to the next block. *)
Definition getDefaultApiBase (h : host) : completion string :=
  let* from_window :=
    try_catch
      (match window h with
       | Some w => let* v := __APP_API_BASE w in Normal (truthy v)
       | None => Normal None
       end)
      (fun _ => Normal None) in
  match from_window with
  | Some url => Normal url
  | None =>
      let* from_env :=
        try_catch
          (match globalThis h with
           | Some g =>
               let* p := process g in
               match p with
               | Some p =>
                   let* e := env p in
                   match e with
                   | Some e => let* v := VITE_API_BASE e in Normal (truthy v)
                   | None => Normal None
                   end
               | None => Normal None
               end
           | None => Normal None
           end)
          (fun _ => Normal None) in
      match from_env with
      | Some url => Normal url
      | None => Normal "http://localhost:9000"
      end
  end.

(** ** [localStorage] *)

(** [denied]: every access throws (storage disabled for the page).
    [capacity]: the quota, counted in stored characters. *)
Record Storage := {
  items : gmap string string;
  denied : option exn;
  capacity : option nat;
}.

Definition stored_size (m : gmap string string) : nat :=
  map_fold (fun k v acc => String.length k + String.length v + acc) 0 m.

Definition QuotaExceededError : exn :=
  {| exn_name := "QuotaExceededError"; exn_message := "" |}.

Definition getItem (k : string) (ls : Storage) : completion (option string) :=
  match denied ls with
  | Some e => Throw e
  | None => Normal (items ls !! k)
  end.

Definition setItem (k v : string) (ls : Storage) : completion Storage :=
  match denied ls with
  | Some e => Throw e
  | None =>
      let items' := <[k := v]> (items ls) in
      match capacity ls with
      | Some cap =>
          if Nat.leb (stored_size items') cap
          then Normal {| items := items'; denied := None; capacity := capacity ls |}
          else Throw QuotaExceededError
      | None => Normal {| items := items'; denied := None; capacity := capacity ls |}
      end
  end.

(** ** The component state *)

Record state := {
  apiBase : string;
  apiBaseInput : string;
  title : string;
  description : string;
  loading : bool;
  response : jsval;
  error : jsval;
  jobs : jsval;
  apiToken : string;
}.

Definition setApiBase (x : string) (s : state) : state :=
  {| apiBase := x; apiBaseInput := apiBaseInput s; title := title s;
     description := description s; loading := loading s; response := response s;
     error := error s; jobs := jobs s; apiToken := apiToken s |}.
Definition setApiBaseInput (x : string) (s : state) : state :=
  {| apiBase := apiBase s; apiBaseInput := x; title := title s;
     description := description s; loading := loading s; response := response s;
     error := error s; jobs := jobs s; apiToken := apiToken s |}.
Definition setTitle (x : string) (s : state) : state :=
  {| apiBase := apiBase s; apiBaseInput := apiBaseInput s; title := x;
     description := description s; loading := loading s; response := response s;
     error := error s; jobs := jobs s; apiToken := apiToken s |}.
Definition setDescription (x : string) (s : state) : state :=
  {| apiBase := apiBase s; apiBaseInput := apiBaseInput s; title := title s;
     description := x; loading := loading s; response := response s;
     error := error s; jobs := jobs s; apiToken := apiToken s |}.
Definition setLoading (x : bool) (s : state) : state :=
  {| apiBase := apiBase s; apiBaseInput := apiBaseInput s; title := title s;
     description := description s; loading := x; response := response s;
     error := error s; jobs := jobs s; apiToken := apiToken s |}.
Definition setResponse (x : jsval) (s : state) : state :=
  {| apiBase := apiBase s; apiBaseInput := apiBaseInput s; title := title s;
     description := description s; loading := loading s; response := x;
     error := error s; jobs := jobs s; apiToken := apiToken s |}.
Definition setError (x : jsval) (s : state) : state :=
  {| apiBase := apiBase s; apiBaseInput := apiBaseInput s; title := title s;
     description := description s; loading := loading s; response := response s;
     error := x; jobs := jobs s; apiToken := apiToken s |}.
Definition setJobs (x : jsval) (s : state) : state :=
  {| apiBase := apiBase s; apiBaseInput := apiBaseInput s; title := title s;
     description := description s; loading := loading s; response := response s;
     error := error s; jobs := x; apiToken := apiToken s |}.
Definition setApiToken (x : string) (s : state) : state :=
  {| apiBase := apiBase s; apiBaseInput := apiBaseInput s; title := title s;
     description := description s; loading := loading s; response := response s;
     error := error s; jobs := jobs s; apiToken := x |}.

(** *** Mounting: the [useState] initialisers and the three effects *)

(** [localStorage.getItem('ac_api_base') || DEFAULT_API_BASE], guarded. *)
Definition initial_apiBase (DEFAULT_API_BASE : string) (ls : Storage) : string :=
  match try_catch
          (let* saved := getItem "ac_api_base" ls in
           Normal (match truthy saved with
                   | Some url => url
                   | None => DEFAULT_API_BASE
                   end))
          (fun _ => Normal DEFAULT_API_BASE)
  with
  | Normal url => url
  | Throw _ => DEFAULT_API_BASE
  end.

Definition initial_state (DEFAULT_API_BASE : string) (ls : Storage) : state :=
  let base := initial_apiBase DEFAULT_API_BASE ls in
  {| apiBase := base; apiBaseInput := base; title := ""; description := "";
     loading := false; response := VNull; error := VNull; jobs := VArr [];
     apiToken := "" |}.

(** First effect: the value handed to [setJobs], if any. *)
Definition load_jobs_effect (ls : Storage) : option jsval :=
  match try_catch
          (let* saved := getItem "ac_jobs" ls in
           match truthy saved with
           | Some text => let* parsed := JSON_parse text in Normal (Some parsed)
           | None => Normal None
           end)
          (fun _ => Normal None)
  with
  | Normal update => update
  | Throw _ => None
  end.

(** Second effect, run after every render in which [jobs] changed. *)
Definition persist_jobs_effect (js : jsval) (ls : Storage) : Storage :=
  match setItem "ac_jobs" (JSON_stringify js) ls with
  | Normal ls' => ls'
  | Throw _ => ls
  end.

(** Third effect, run after every render in which [apiBase] changed. *)
Definition persist_apiBase_effect (base : string) (ls : Storage) : Storage :=
  match setItem "ac_api_base" base ls with
  | Normal ls' => ls'
  | Throw _ => ls
  end.

(** The first render and its effects, in declaration order: the load effect
    reads the storage before the persist effect of the same pass writes the
    initial (empty) list; the update queued by the load effect is applied
    afterwards.  The result is the state of the second render and the
    storage it starts from.  The second render itself is not part of
    [mount]: [Normal] says that the initialisers and the effects have
    completed, not that the render which follows does (it throws when the
    loaded value is not an array of entries that can be rendered, lines 210
    to 222). *)
Definition mount (h : host) (ls : Storage) : completion (state * Storage) :=
  let* DEFAULT_API_BASE := getDefaultApiBase h in
  let s0 := initial_state DEFAULT_API_BASE ls in
  let queued := load_jobs_effect ls in
  let ls1 := persist_jobs_effect (jobs s0) ls in
  let ls2 := persist_apiBase_effect (apiBase s0) ls1 in
  match queued with
  | Some parsed => Normal (setJobs parsed s0, ls2)
  | None => Normal (s0, ls2)
  end.

(** *** [submitFeature] *)

Record http_response := {
  status : Z;
  content_type : option string;
  body : completion string;
}.

(** [res.ok] *)
Definition ok (res : http_response) : bool :=
  (200 <=? status res)%Z && (status res <=? 299)%Z.

Record request := {
  url : string;
  method : string;
  headers : list (string * string);
  request_body : string;
}.

Definition endpoint (base : string) : string :=
  replace_trailing_slash base +:+ "/feature_request".

(** The call [fetch(endpoint, {...})] made from a render whose state is [s]. *)
Definition submit_request (s : state) : request :=
  {| url := endpoint (apiBase s);
     method := "POST";
     headers :=
       ("Content-Type", "application/json")
       :: (if String.eqb (apiToken s) "" then []
           else [("Authorization", "Bearer " +:+ apiToken s)]);
     request_body :=
       JSON_stringify (VObj [("title", VStr (title s));
                             ("description", VStr (description s))]) |}.

(** The three setters called before the request is built. *)
Definition submit_begin (s : state) : state :=
  setError VNull (setResponse VNull (setLoading true s)).

(** Lines 119 to 130: the parsed body. *)
Definition read_data (res : http_response) : completion jsval :=
  let contentType := default "" (truthy (content_type res)) in
  if includes "application/json" contentType then
    let* text := body res in JSON_parse text
  else
    let* text := body res in
    try_catch (JSON_parse text) (fun _ => Normal (VObj [("text", VStr text)])).

(** The code points of a string, each as a string (string iteration). *)
Definition is_continuation (c : ascii) : bool :=
  let n := N_of_ascii c in ((128 <=? n) && (n <? 192))%N.

Fixpoint code_points (s : string) : list string :=
  match s with
  | EmptyString => []
  | String c rest =>
      match code_points rest with
      | String d g :: gs =>
          if is_continuation d then String c (String d g) :: gs
          else String c "" :: String d g :: gs
      | gs => String c "" :: gs
      end
  end.

(** [...v] inside an array literal. *)
Definition spread (v : jsval) : completion (list jsval) :=
  match v with
  | VArr xs => Normal xs
  | VStr s => Normal (map VStr (code_points s))
  | _ => Throw not_iterable_error
  end.

(** [{ id: Date.now(), title, created_at: new Date().toISOString(), result: data }] *)
Definition new_job (title : string) (now created : finite) (data : jsval) : jsval :=
  VObj [("id", VNum (NFinite now));
        ("title", VStr title);
        ("created_at", VStr (toISOString created));
        ("result", data)].

(** [(prev) => [job, ...prev].slice(0, 30)] *)
Definition prepend_job (job : jsval) (prev : jsval) : completion jsval :=
  let* old := spread prev in
  Normal (VArr (take 30 (job :: old))).

(** The rest of [submitFeature], from the point where the [fetch] promise
    settles.  [submitted] is the state of the render that submitted (the
    closure, whose [title] goes into the job), [s] the state the updates
    are applied to, [now] and [created] the two clock readings.  The [try]
    block yields the response and its data, or throws.  The updater handed
    to [setJobs] runs when React renders next, out of reach of the [catch]
    clause: its exception is the completion of the whole step. *)
Definition submit_settle (submitted : state) (outcome : completion http_response)
    (now created : finite) (s : state) : completion state :=
  match (let* res := outcome in
         let* data := read_data res in
         Normal (res, data)) with
  | Normal (res, data) =>
      if ok res then
        let* jobs' := prepend_job (new_job (title submitted) now created data) (jobs s) in
        Normal (setLoading false
                  (setDescription "" (setTitle "" (setResponse data (setJobs jobs' s)))))
      else Normal (setLoading false (setError data s))
  | Throw err => Normal (setLoading false (setError (VStr (String_of_exn err)) s))
  end.

(** A submission during which nothing else happens. *)
Definition submitFeature (s : state) (outcome : completion http_response)
    (now created : finite) : completion state :=
  submit_settle s outcome now created (submit_begin s).

(** A user who types a title and a description, submits, and waits for
    the answer. *)
Record submission := {
  typed_title : string;
  typed_description : string;
  answer : completion http_response;
  clock_id : finite;
  clock_created : finite;
}.

Definition submit_one (s : state) (sub : submission) : completion state :=
  submitFeature
    (setDescription (typed_description sub) (setTitle (typed_title sub) s))
    (answer sub) (clock_id sub) (clock_created sub).

Fixpoint submit_each (s : state) (subs : list submission) : completion state :=
  match subs with
  | [] => Normal s
  | sub :: rest => let* s' := submit_one s sub in submit_each s' rest
  end.

(** *** The other handlers *)

(** The Set button. *)
Definition click_Set (s : state) : state := setApiBase (apiBaseInput s) s.

(** The Clear button. *)
Definition click_Clear (s : state) : state :=
  setError VNull (setResponse VNull (setDescription "" (setTitle "" s))).

(** *** Sessions

    What can happen to a mounted component, one handler call at a time.
    A submission is two events: [Submit] runs [submitFeature] up to the
    [await], [Settle] runs the rest when the answer arrives, with the
    closure of the render that submitted; any number of other events,
    other submissions included, may come in between.  (The View button,
    which only sets the response, is left out.) *)
Inductive event : Type :=
| Type_title (x : string)
| Type_description (x : string)
| Type_apiBaseInput (x : string)
| Type_apiToken (x : string)
| Click_Set
| Click_Clear
| Submit
| Settle (submitted : state) (outcome : completion http_response) (now created : finite).

Definition handle (s : state) (e : event) : completion state :=
  match e with
  | Type_title x => Normal (setTitle x s)
  | Type_description x => Normal (setDescription x s)
  | Type_apiBaseInput x => Normal (setApiBaseInput x s)
  | Type_apiToken x => Normal (setApiToken x s)
  | Click_Set => Normal (click_Set s)
  | Click_Clear => Normal (click_Clear s)
  | Submit => Normal (submit_begin s)
  | Settle submitted outcome now created => submit_settle submitted outcome now created s
  end.

Fixpoint run (s : state) (trace : list event) : completion state :=
  match trace with
  | [] => Normal s
  | e :: rest => let* s' := handle s e in run s' rest
  end.

(** The job an event creates, if it is the arrival of a 2xx answer whose
    body could be read. *)
Definition created_by (e : event) : option jsval :=
  match e with
  | Settle submitted (Normal res) now created =>
      if ok res then
        match read_data res with
        | Normal data => Some (new_job (title submitted) now created data)
        | Throw _ => None
        end
      else None
  | _ => None
  end.

(** *** Sessions through the form

    The submit button is disabled while [loading] is set (line 180) and
    the title and the description are [required] (lines 174 and 177), so
    the form cannot be submitted while a request is loading or one of the
    two is empty; and an answer arrives only for a request that is in
    flight.  [pending] counts the requests in flight. *)
Definition enabled (pending : nat) (s : state) (e : event) : bool :=
  match e with
  | Submit =>
      negb (loading s)
      && negb (String.eqb (title s) "") && negb (String.eqb (description s) "")
  | Settle _ _ _ _ => negb (Nat.eqb pending 0)
  | _ => true
  end.

Definition in_flight (pending : nat) (e : event) : nat :=
  match e with
  | Submit => S pending
  | Settle _ _ _ _ => Nat.pred pending
  | _ => pending
  end.

(** The events of [trace] can happen one after the other, starting in
    state [s] with [pending] requests in flight. *)
Fixpoint possible (pending : nat) (s : state) (trace : list event) : bool :=
  match trace with
  | [] => true
  | e :: rest =>
      enabled pending s e
      && match handle s e with
         | Normal s' => possible (in_flight pending e) s' rest
         | Throw _ => false
         end
  end.

(** ** What the component shows, downloads and pings *)

(** *** [JSON.stringify(v, null, 2)] *)

Definition newline_char : ascii := "010"%char.

(** The indentation at nesting depth [depth]: the gap of two spaces, once
    per level. *)
Fixpoint indentation (depth : nat) : string :=
  match depth with
  | O => EmptyString
  | S d => String " " (String " " (indentation d))
  end.

(** [items.join(sep)] *)
Fixpoint join (sep : string) (items : list string) : string :=
  match items with
  | [] => ""
  | [x] => x
  | x :: rest => x +:+ sep +:+ join sep rest
  end.

(** A line break followed by the indentation of [depth]. *)
Definition line_break (depth : nat) : string :=
  String newline_char (indentation depth).

(** [SerializeJSONProperty] with a gap: an empty array or object is written
    without a line break; in any other, every item starts a line of its
    own, one level deeper, and the closing bracket is on a line at the
    level of the opening one.  A colon is followed by one space. *)
Fixpoint stringify_at (depth : nat) (v : jsval) : string :=
  match v with
  | VArr xs =>
      match xs with
      | [] => "[]"
      | _ =>
          "[" +:+ line_break (S depth)
          +:+ join (String "," (line_break (S depth))) (map (stringify_at (S depth)) xs)
          +:+ line_break depth +:+ "]"
      end
  | VObj props =>
      match props with
      | [] => "{}"
      | _ =>
          "{" +:+ line_break (S depth)
          +:+ join (String "," (line_break (S depth)))
                (map (fun '(k, x) =>
                        QuoteJSONString k +:+ ": " +:+ stringify_at (S depth) x) props)
          +:+ line_break depth +:+ "}"
      end
  | _ => JSON_stringify v
  end.

(** The text of one member of an object written at [depth]. *)
Definition member_line (depth : nat) (kv : string * jsval) : string :=
  QuoteJSONString kv.1 +:+ ": " +:+ stringify_at (S depth) kv.2.

(** [v] is read back from its indented text, at any depth and whatever
    follows it. *)
Definition indented_reads_back (v : jsval) : Prop :=
  forall (depth fuel : nat) (rest : string),
    String.length (stringify_at depth v) <= fuel ->
    ends_token rest ->
    parse_value fuel (stringify_at depth v +:+ rest) = Some (v, rest).

Definition JSON_stringify_indented (v : jsval) : string := stringify_at 0 v.

(** The text inside the [<pre>] of [PrettyJSON]. *)
Definition PrettyJSON (data : jsval) : string := JSON_stringify_indented data.

(** *** [downloadResult] *)

(** What the browser is asked to save: the [download] attribute of the
    link, the type of the blob and the text the blob is made of. *)
Record download := {
  file_name : string;
  mime_type : string;
  content : string;
}.

(** [now] is the reading of [Date.now()] in the template literal. *)
Definition downloadResult (res : jsval) (now : finite) : download :=
  {| file_name := "autocoder_result_" +:+ Number_toString now +:+ ".json";
     mime_type := "application/json";
     content := JSON_stringify_indented res |}.

(** The Copy button: the text written to the clipboard. *)
Definition copy_text (s : state) : string := JSON_stringify (response s).

(** *** The Latest Result panel *)

(** [ToBoolean]: [null], [false], the zeros and the empty string are
    falsy.  A finite number is a zero exactly when [Number::toString]
    prints it as [0]. *)
Definition ToBoolean (v : jsval) : bool :=
  match v with
  | VNull => false
  | VBool b => b
  | VNum (NFinite f) => negb (String.eqb (Number_toString f) "0")
  | VNum NNegZero => false
  | VNum _ => true
  | VStr str => negb (String.eqb str "")
  | VArr _ | VObj _ => true
  end.

(** What React puts on the page for an expression in braces: nothing, a
    bare text, or the error banner with its text. *)
Inductive rendered : Type :=
| Nothing
| Text (t : string)
| Banner (t : string).

(** Line 190, [{error && <div>...</div>}].  When [error] is truthy the
    expression is the banner.  Otherwise it is [error] itself, and React
    prints a number (either zero as [0]) and skips [null], [false] and the
    empty string. *)
Definition render_error (s : state) : rendered :=
  if ToBoolean (error s) then
    Banner (match error s with
            | VStr e => e
            | e => JSON_stringify e
            end)
  else
    match error s with
    | VNum n => Text (stringify_number n)
    | _ => Nothing
    end.

(** Lines 191 to 203: the text that [PrettyJSON] shows under the Download
    and Copy buttons, [None] when the placeholder [No result yet] is
    rendered instead. *)
Definition result_panel (s : state) : option string :=
  if ToBoolean (response s) then Some (PrettyJSON (response s)) else None.

(** *** The job list buttons *)

(** The View button of the list entry [job]: [setResponse(j.result)].
    [None] when the entry has no [result] property: the response would
    become [undefined], which the state of this model does not hold. *)
Definition click_View (job : jsval) (s : state) : option state :=
  (fun r => setResponse r s) <$> prop "result" job.

(** The Download button of the list entry [job], likewise. *)
Definition click_Download (job : jsval) (now : finite) : option download :=
  (fun r => downloadResult r now) <$> prop "result" job.

(** A list entry as line 135 builds it. *)
Definition is_job (j : jsval) : bool :=
  match j with
  | VObj [(k1, VNum (NFinite _)); (k2, VStr _); (k3, VStr _); (k4, _)] =>
      String.eqb k1 "id" && String.eqb k2 "title"
      && String.eqb k3 "created_at" && String.eqb k4 "result"
  | _ => false
  end.

(** *** Quick Health *)

Definition health_url (base : string) : string :=
  replace_trailing_slash base +:+ "/health".

(** The Ping Backend handler from the point where the [fetch] promise
    settles: the text handed to [alert].  Neither the status nor the
    content type is looked at. *)
Definition ping_alert (outcome : completion http_response) : string :=
  match (let* r := outcome in
         let* text := body r in
         JSON_parse text) with
  | Normal d => JSON_stringify d
  | Throw e => String_of_exn e
  end.

(** ** Vocabulary of the contract *)

(** [p] is [base] with its trailing slash stripped. *)
Definition strips_to (base p : string) : Prop :=
  base = p +:+ "/" \/ (p = base /\ forall q, base <> q +:+ "/").

(** The host page injects the override [url]. *)
Inductive window_provides (h : host) (url : string) : Prop :=
| window_provides_intro w :
    window h = Some w ->
    __APP_API_BASE w = Normal (Some url) ->
    url <> "" ->
    window_provides h url.

(** The bundler injected the environment value [url]. *)
Inductive env_provides (h : host) (url : string) : Prop :=
| env_provides_intro g p e :
    globalThis h = Some g ->
    process g = Normal (Some p) ->
    env p = Normal (Some e) ->
    VITE_API_BASE e = Normal (Some url) ->
    url <> "" ->
    env_provides h url.

(** The content type declares JSON, as line 121 tests it. *)
Definition declares_json (res : http_response) : bool :=
  includes "application/json" (default "" (content_type res)).

(** A submission fails: the [fetch] promise rejects, or the status is
    outside 200..299. *)
Definition fails (outcome : completion http_response) : Prop :=
  match outcome with
  | Throw _ => True
  | Normal res => ok res = false
  end.

(** A submission succeeds with the parsed body [data]. *)
Definition succeeds (outcome : completion http_response) (data : jsval) : Prop :=
  exists res, outcome = Normal res /\ ok res = true /\ read_data res = Normal data.

(** The job that a successful submission creates. *)
Definition job_of (sd : submission * jsval) : jsval :=
  new_job (typed_title sd.1) (clock_id sd.1) (clock_created sd.1) sd.2.

(** A storage that holds [text] under [ac_jobs] and nothing else. *)
Definition storage_with_jobs (text : string) : Storage :=
  {| items := {[ "ac_jobs" := text ]}; denied := None; capacity := None |}.

(** The states a session goes through: the one mounting produces from
    some host page and storage, and those that events lead to. *)
Inductive reachable : state -> Prop :=
| reachable_mount h ls s ls' :
    mount h ls = Normal (s, ls') -> reachable s
| reachable_handle s e s' :
    reachable s -> handle s e = Normal s' -> reachable s'.

(** The [id] of a job created at clock reading [t]. *)
Definition id_at (t : finite) : option jsval := Some (VNum (NFinite t)).

End Model.

Arguments number : clear implicits.
Arguments jsval : clear implicits.
Arguments Engine : clear implicits.
Arguments state : clear implicits.
Arguments submission : clear implicits.
Arguments event : clear implicits.
Arguments lawful_engine {finite} engine.

(** ** An engine for integer data

    The model runs on concrete inputs once an engine is fixed.  This one
    holds the integers: it prints them in decimal, which is what
    [Number::toString] does below 10^21, reads integer tokens, with or
    without a non-negative exponent, and lets a token overflow to an
    infinity from the double range on.  Tokens with a fraction or a
    negative exponent are not read by it. *)
Module IntEngine.

Definition decimal (z : Z) : string :=
  NilZero.string_of_int (Z.to_int z).

(** The characters of a printed integer. *)
Definition digit_or_minus (c : ascii) : bool :=
  let n := N_of_ascii c in ((48 <=? n) && (n <=? 57) || (n =? 45))%N.

(** An integer token is canonical: printing its value gives it back. *)
Definition int_value (tok : string) : option Z :=
  match NilZero.int_of_string tok with
  | Some d =>
      let z := Z.of_int d in
      if String.eqb (decimal z) tok then Some z else None
  | None => None
  end.

(** The token cut at its first [e] or [E]. *)
Fixpoint split_exponent (tok : string) : string * option string :=
  match tok with
  | EmptyString => (EmptyString, None)
  | String c rest =>
      if Ascii.eqb c "e" || Ascii.eqb c "E" then (EmptyString, Some rest)
      else let '(m, e) := split_exponent rest in (String c m, e)
  end.

(** The least magnitude that rounds to an infinity: 2^1024 - 2^970. *)
Definition overflow_threshold : Z := 2 ^ 1024 - 2 ^ 970.

Definition read_number (tok : string) : option (number Z) :=
  match split_exponent tok with
  | (m, None) =>
      match int_value m with
      | Some z => Some (NFinite z)
      | None => if String.eqb m "-0" then Some NNegZero else None
      end
  | (m, Some e) =>
      let digits := default e (strip_prefix "+" e) in
      match digits, digits_val digits 0 with
      | String _ _, Some x =>
          match int_value m with
          | Some z =>
              if (z =? 0)%Z then Some (NFinite 0%Z)
              else if (400 <? x)%N || (overflow_threshold <=? Z.abs z * 10 ^ Z.of_N x)%Z
                   then (if (z <? 0)%Z then Some NNegInf else Some NPosInf)
                   else Some (NFinite (z * 10 ^ Z.of_N x)%Z)
          | None => if String.eqb m "-0" then Some NNegZero else None
          end
      | _, _ => None
      end
  end.

(** [n] in decimal, padded with zeros to [width] digits. *)
Fixpoint pad (width : nat) (n : Z) : string :=
  match width with
  | O => EmptyString
  | S w => pad w (n / 10) +:+ String (ascii_of_N (48 + Z.to_N (n mod 10))) ""
  end.

(** The civil date of a day number counted from 1970-01-01. *)
Definition civil_from_days (days : Z) : Z * Z * Z :=
  let z := (days + 719468)%Z in
  let era := (z / 146097)%Z in
  let doe := (z - era * 146097)%Z in
  let yoe := ((doe - doe / 1460 + doe / 36524 - doe / 146096) / 365)%Z in
  let doy := (doe - (365 * yoe + yoe / 4 - yoe / 100))%Z in
  let mp := ((5 * doy + 2) / 153)%Z in
  let d := (doy - (153 * mp + 2) / 5 + 1)%Z in
  let m := (if (mp <? 10)%Z then mp + 3 else mp - 9)%Z in
  let y := (yoe + era * 400 + (if (m <=? 2)%Z then 1 else 0))%Z in
  (y, m, d).

Definition iso_string (t : Z) : string :=
  let '(y, m, d) := civil_from_days (t / 86400000) in
  let ms := (t mod 86400000)%Z in
  let year :=
    if ((0 <=? y) && (y <=? 9999))%Z then pad 4 y
    else (if (y <? 0)%Z then "-" else "+") +:+ pad 6 (Z.abs y) in
  year +:+ "-" +:+ pad 2 m +:+ "-" +:+ pad 2 d +:+ "T"
  +:+ pad 2 (ms / 3600000) +:+ ":" +:+ pad 2 (ms / 60000 mod 60) +:+ ":"
  +:+ pad 2 (ms / 1000 mod 60) +:+ "." +:+ pad 3 (ms mod 1000) +:+ "Z".

#[global] Instance engine : Engine Z := {|
  Number_zero := 0%Z;
  Number_toString := decimal;
  JSON_number := read_number;
  toISOString := iso_string;
  json_syntax_error text :=
    {| exn_name := "SyntaxError"; exn_message := "Unexpected token in JSON" |};
  not_iterable_error :=
    {| exn_name := "TypeError"; exn_message := "object is not iterable" |};
|}.

End IntEngine.

(** ** Concrete inputs

    The inputs on which the model is run below: host pages, storages,
    responses and submissions, all with the integer engine. *)
Module Sample.

(** No [window], no [globalThis]. *)
Definition host_bare : host := {| window := None; globalThis := None |}.

(** Both lookups run a getter that throws. *)
Definition getter_error : exn :=
  {| exn_name := "SecurityError"; exn_message := "blocked" |}.

Definition host_guarded : host :=
  {| window := Some {| __APP_API_BASE := Throw getter_error |};
     globalThis := Some {| process := Throw getter_error |} |}.

Definition empty_storage : Storage :=
  {| items := ∅; denied := None; capacity := None |}.

Definition storage_with_base (base : string) : Storage :=
  {| items := {[ "ac_api_base" := base ]}; denied := None; capacity := None |}.

(** The state of a first visit. *)
Definition fresh : state Z := initial_state "http://localhost:9000" empty_storage.

Definition json_response (code : Z) (v : jsval Z) : http_response :=
  {| status := code;
     content_type := Some "application/json";
     body := Normal (JSON_stringify v) |}.

Definition generated : jsval Z :=
  VObj [("code", VStr "def is_palindrome(s): return s == s[::-1]")].

(** A feature request answered with generated code at clock reading [t]. *)
Definition palindrome (t : Z) : submission Z :=
  {| typed_title := "Add palindrome checker";
     typed_description := "Ignore case and spaces";
     answer := Normal (json_response 200 generated);
     clock_id := t;
     clock_created := t |}.

(** A 500 answer that declares JSON and carries none. *)
Definition broken_500 : http_response :=
  {| status := 500; content_type := Some "application/json"; body := Normal "oops" |}.

Definition plain_text_answer : http_response :=
  {| status := 200; content_type := Some "text/plain"; body := Normal "not json" |}.

Definition connection_refused : exn :=
  {| exn_name := "TypeError"; exn_message := "Failed to fetch" |}.

(** A backend that answers with a number too large for a double. *)
Definition huge : submission Z :=
  {| typed_title := "Count atoms";
     typed_description := "All of them";
     answer := Normal {| status := 200;
                         content_type := Some "application/json";
                         body := Normal "1e999" |};
     clock_id := 1700000000000%Z;
     clock_created := 1700000000000%Z |}.

(** The page injects an override and the bundler a value. *)
Definition build_env : global_obj :=
  {| process :=
       Normal (Some {| env :=
         Normal (Some {| VITE_API_BASE := Normal (Some "https://build.example") |}) |}) |}.

Definition host_both : host :=
  {| window := Some {| __APP_API_BASE := Normal (Some "https://page.example") |};
     globalThis := Some build_env |}.

(** The bundler injects a value, the page nothing. *)
Definition host_env : host := {| window := None; globalThis := Some build_env |}.

(** A storage whose every access throws. *)
Definition blocked_storage : Storage :=
  {| items := ∅; denied := Some getter_error; capacity := None |}.

(** A storage that another script of the page uses too. *)
Definition storage_with_theme : Storage :=
  {| items := {[ "theme" := "dark" ]}; denied := None; capacity := None |}.

(** A 200 answer that declares JSON and carries none. *)
Definition broken_200 : http_response :=
  {| status := 200; content_type := Some "application/json"; body := Normal "oops" |}.

Definition charset_answer : http_response :=
  {| status := 200;
     content_type := Some "application/json; charset=utf-8";
     body := Normal "[]" |}.

(** The state after the submission [huge]. *)
Definition after_huge : state Z :=
  match submit_one fresh huge with
  | Normal s => s
  | Throw _ => fresh
  end.

(** A session through the form: a failed submission, cleared while in
    flight, and a second submission still pending. *)
Definition retry_session : list (event Z) :=
  [Type_title "Add palindrome checker";
   Type_description "Ignore case and spaces";
   Submit;
   Click_Clear;
   Settle (setTitle "Add palindrome checker" fresh) (Throw connection_refused) 1%Z 1%Z;
   Type_title "Add palindrome checker";
   Type_description "Ignore case and spaces";
   Submit].

(** A session in which one answer succeeds. *)
Definition one_job_session : list (event Z) :=
  [Type_title "Add palindrome checker";
   Type_description "Ignore case and spaces";
   Submit;
   Settle (setTitle "Add palindrome checker" fresh) (answer (palindrome 1)) 1%Z 1%Z;
   Click_Clear].

End Sample.

(** * Properties of the model *)

Section Properties.

Context {finite : Type} {engine : Engine finite}.

Implicit Types (s : state finite) (v data : jsval finite) (l : list (jsval finite)).

(** ** Strings *)

Lemma append_String c a b : String c a +:+ b = String c (a +:+ b).
Proof. reflexivity. Qed.

Lemma append_nil_r a : a +:+ "" = a.
Proof. induction a as [|c a IH]; [reflexivity|]. rewrite append_String, IH. reflexivity. Qed.

Lemma append_assoc a b c : (a +:+ b) +:+ c = a +:+ (b +:+ c).
Proof.
  induction a as [|x a IH]; [reflexivity|].
  rewrite !append_String, IH. reflexivity.
Qed.

Lemma replace_trailing_slash_present p : replace_trailing_slash (p +:+ "/") = p.
Proof.
  induction p as [|c p IH]; [reflexivity|].
  rewrite append_String. destruct p as [|d p].
  - reflexivity.
  - rewrite append_String in *. cbn [replace_trailing_slash] in *.
    rewrite IH. reflexivity.
Qed.

Lemma replace_trailing_slash_absent base :
  (forall q, base <> q +:+ "/") -> replace_trailing_slash base = base.
Proof.
  induction base as [|c base IH]; intros H; [reflexivity|].
  destruct base as [|d base].
  - cbn. destruct (Ascii.eqb_spec c "/") as [->|]; [|reflexivity].
    exfalso. apply (H ""). reflexivity.
  - cbn [replace_trailing_slash]. f_equal. apply IH.
    intros q Hq. apply (H (String c q)). rewrite append_String, Hq. reflexivity.
Qed.

(** C7.  For every base URL, the request goes to the base URL with its
    trailing slash stripped, followed by [/feature_request]. *)
Theorem endpoint_strips_trailing_slash s (p : string) :
  strips_to (apiBase s) p ->
  url (submit_request s) = p +:+ "/feature_request".
Proof.
  intros [Hslash | [-> Hnone]]; cbn; unfold endpoint.
  - rewrite Hslash, replace_trailing_slash_present. reflexivity.
  - rewrite replace_trailing_slash_absent by exact Hnone. reflexivity.
Qed.

(** ** The configuration resolver *)

Lemma truthy_Some (o : option string) url : truthy o = Some url -> o = Some url /\ url <> "".
Proof.
  destruct o as [x|]; cbn; [|discriminate].
  destruct (String.eqb_spec x ""); [discriminate|].
  intros [= <-]. split; [reflexivity | assumption].
Qed.

(** Every path through the two [try] blocks ends in a [return]. *)
Lemma getDefaultApiBase_returns (h : host) :
  exists url, getDefaultApiBase h = Normal url.
Proof.
  unfold getDefaultApiBase.
  destruct (window h) as [w|]; cbn.
  - destruct (__APP_API_BASE w) as [o|e]; cbn.
    + destruct (truthy o); cbn; [eauto|].
      destruct (globalThis h) as [g|]; cbn; [|eauto].
      destruct (process g) as [[p'|]|]; cbn; [|eauto|eauto].
      destruct (env p') as [[e'|]|]; cbn; [|eauto|eauto].
      destruct (VITE_API_BASE e') as [o'|]; cbn; [|eauto].
      destruct (truthy o'); cbn; eauto.
    + destruct (globalThis h) as [g|]; cbn; [|eauto].
      destruct (process g) as [[p'|]|]; cbn; [|eauto|eauto].
      destruct (env p') as [[e'|]|]; cbn; [|eauto|eauto].
      destruct (VITE_API_BASE e') as [o'|]; cbn; [|eauto].
      destruct (truthy o'); cbn; eauto.
  - destruct (globalThis h) as [g|]; cbn; [|eauto].
    destruct (process g) as [[p'|]|]; cbn; [|eauto|eauto].
    destruct (env p') as [[e'|]|]; cbn; [|eauto|eauto].
    destruct (VITE_API_BASE e') as [o'|]; cbn; [|eauto].
    destruct (truthy o'); cbn; eauto.
Qed.

(** C5.  The resolver always returns, whatever the two lookups do, and
    when neither source provides a value it returns the fixed default. *)
Theorem getDefaultApiBase_total_and_default (h : host) :
  (exists url, getDefaultApiBase h = Normal url)
  /\ ((forall url, ~ window_provides h url) ->
      (forall url, ~ env_provides h url) ->
      getDefaultApiBase h = Normal "http://localhost:9000").
Proof.
  unfold getDefaultApiBase. split.
  - apply getDefaultApiBase_returns.
  - intros Hw He.
    assert (Hfirst :
      try_catch
        (match window h with
         | Some w => let* v := __APP_API_BASE w in Normal (truthy v)
         | None => Normal None
         end) (fun _ => Normal None) = Normal None).
    { destruct (window h) as [w|] eqn:Ew; [|reflexivity].
      destruct (__APP_API_BASE w) as [o|e] eqn:Eo; cbn; [|reflexivity].
      destruct (truthy o) as [url|] eqn:Et; [|reflexivity].
      apply truthy_Some in Et as [-> Hne].
      exfalso. apply (Hw url). econstructor; eassumption. }
    rewrite Hfirst. cbn.
    destruct (globalThis h) as [g|] eqn:Eg; cbn; [|reflexivity].
    destruct (process g) as [[p'|]|] eqn:Ep; cbn; [|reflexivity|reflexivity].
    destruct (env p') as [[e'|]|] eqn:Ee; cbn; [|reflexivity|reflexivity].
    destruct (VITE_API_BASE e') as [o'|] eqn:Ev; cbn; [|reflexivity].
    destruct (truthy o') as [url|] eqn:Et; cbn; [|reflexivity].
    apply truthy_Some in Et as [-> Hne].
    exfalso. apply (He url). econstructor; eassumption.
Qed.

(** ** Mounting *)

Lemma initial_apiBase_saved (d saved : string) (ls : Storage) :
  getItem "ac_api_base" ls = Normal (Some saved) -> saved <> "" ->
  initial_apiBase d ls = saved.
Proof.
  intros Hget Hne. unfold initial_apiBase. rewrite Hget. cbn.
  destruct (String.eqb_spec saved ""); [contradiction | reflexivity].
Qed.

Lemma mount_returns (h : host) (ls : Storage) :
  exists d s ls',
    getDefaultApiBase h = Normal d
    /\ mount h ls = Normal (s, ls')
    /\ apiBase s = initial_apiBase d ls
    /\ apiBaseInput s = initial_apiBase d ls
    /\ jobs s = default (VArr []) (load_jobs_effect ls).
Proof.
  destruct (getDefaultApiBase_returns h) as [d Hd].
  unfold mount. rewrite Hd. cbn.
  destruct (load_jobs_effect ls) as [parsed|]; eauto 10.
Qed.

Lemma initial_apiBase_empty (d : string) (ls : Storage) :
  getItem "ac_api_base" ls = Normal (Some "") \/ getItem "ac_api_base" ls = Normal None ->
  initial_apiBase d ls = d.
Proof. intros [Hget|Hget]; unfold initial_apiBase; rewrite Hget; reflexivity. Qed.

(** C4, with the empty string set apart.  A non-empty base URL persisted
    under [ac_api_base] is the initial [apiBase], whatever the computed
    default is.  A persisted empty string is treated as an absent one: the
    initial [apiBase] is the computed default, whatever that is, and after
    mounting it is what the resolver returned. *)
Theorem persisted_base_takes_precedence (h : host) (ls : Storage) (saved : string) :
  getItem "ac_api_base" ls = Normal (Some saved) ->
  (saved <> "" ->
   (forall d, apiBase (initial_state (finite := finite) d ls) = saved)
   /\ exists s ls', mount h ls = Normal (s, ls') /\ apiBase s = saved)
  /\ (saved = "" ->
      (forall d, apiBase (initial_state (finite := finite) d ls) = d)
      /\ (forall ls0 d,
            getItem "ac_api_base" ls0 = Normal None ->
            apiBase (initial_state (finite := finite) d ls)
            = apiBase (initial_state (finite := finite) d ls0))
      /\ exists d s ls',
            getDefaultApiBase h = Normal d
            /\ mount h ls = Normal (s, ls')
            /\ apiBase s = d).
Proof.
  intros Hget. split.
  - intros Hne. split.
    + intros d. cbn. apply initial_apiBase_saved; assumption.
    + destruct (mount_returns h ls) as (d & s & ls' & _ & Hm & Hb & _).
      exists s, ls'. split; [exact Hm|].
      rewrite Hb. apply initial_apiBase_saved; assumption.
  - intros ->. split; [|split].
    + intros d. cbn. apply initial_apiBase_empty. left. exact Hget.
    + intros ls0 d Hnone. cbn.
      rewrite (initial_apiBase_empty d ls) by (left; exact Hget).
      rewrite (initial_apiBase_empty d ls0) by (right; exact Hnone).
      reflexivity.
    + destruct (mount_returns h ls) as (d & s & ls' & Hd & Hm & Hb & _).
      exists d, s, ls'. split; [exact Hd|]. split; [exact Hm|].
      rewrite Hb. apply initial_apiBase_empty. left. exact Hget.
Qed.

(** ** The form *)

(** C10.  Clear puts title, description, response and error back to their
    initial values and leaves every other cell alone. *)
Theorem click_Clear_resets_form_only s (d : string) (ls : Storage) :
  let s' := click_Clear s in
  let s0 := initial_state (finite := finite) d ls in
  (title s' = "" /\ description s' = "" /\ response s' = VNull /\ error s' = VNull)
  /\ (title s' = title s0 /\ description s' = description s0
      /\ response s' = response s0 /\ error s' = error s0)
  /\ (jobs s' = jobs s /\ apiBase s' = apiBase s /\ apiBaseInput s' = apiBaseInput s
      /\ apiToken s' = apiToken s /\ loading s' = loading s).
Proof. cbn. repeat split. Qed.

(** ** Reading the response *)

Lemma content_type_or_empty (res : http_response) :
  default "" (truthy (content_type res)) = default "" (content_type res).
Proof.
  destruct (content_type res) as [x|]; [|reflexivity].
  cbn. destruct (String.eqb_spec x "") as [->|]; reflexivity.
Qed.

(** C6.  A body whose content type declares JSON is parsed as JSON; any
    other body is parsed as JSON when it can be, and wrapped as
    [{ text }] when it cannot. *)
Theorem read_data_by_content_type (res : http_response) (text : string) :
  body res = Normal text ->
  (declares_json res = true -> read_data res = JSON_parse text)
  /\ (declares_json res = false ->
      forall v, JSON_parse text = Normal v -> read_data res = Normal v)
  /\ (declares_json res = false ->
      forall e, JSON_parse text = Throw e ->
      read_data res = Normal (VObj [("text", VStr text)])).
Proof.
  intros Hbody. unfold read_data, declares_json.
  rewrite content_type_or_empty, Hbody.
  repeat split.
  - intros ->. reflexivity.
  - intros -> v Hv. cbn. rewrite Hv. reflexivity.
  - intros -> e He. cbn. rewrite He. reflexivity.
Qed.

(** ** Submissions that fail *)

(** Whatever the state the answer arrives in, a failed submission touches
    the error and the loading flag only. *)
Lemma submit_settle_failure (submitted s : state finite) outcome now created :
  fails outcome ->
  exists payload,
    submit_settle submitted outcome now created s
    = Normal (setLoading false (setError payload s)).
Proof.
  unfold fails, submit_settle. destruct outcome as [res|e]; cbn.
  - intros Hok. destruct (read_data res) as [data|e]; cbn.
    + rewrite Hok. eauto.
    + eauto.
  - eauto.
Qed.

(** C2, with the error spelled out by case.  A submission that fails
    leaves the job list, the title and the description as submitted and
    ends with the loading flag off; the error is the parsed body when the
    status is not 2xx and the body could be read and parsed, and the
    stringified exception when the fetch, the reading of the body or the
    parsing of a JSON-declared body threw. *)
Theorem failed_submission_keeps_form s (outcome : completion http_response)
    (now created : finite) :
  fails outcome ->
  exists s',
    submitFeature s outcome now created = Normal s'
    /\ jobs s' = jobs s
    /\ title s' = title s
    /\ description s' = description s
    /\ loading s' = false
    /\ (forall e, outcome = Throw e -> error s' = VStr (String_of_exn e))
    /\ (forall res data,
         outcome = Normal res -> read_data res = Normal data -> error s' = data)
    /\ (forall res e,
         outcome = Normal res -> read_data res = Throw e ->
         error s' = VStr (String_of_exn e)).
Proof.
  unfold fails, submitFeature, submit_settle. destruct outcome as [res|e]; cbn.
  - intros Hok. destruct (read_data res) as [data|e] eqn:Hdata; cbn.
    + rewrite Hok. eexists. split; [reflexivity|]. cbn.
      repeat split; try discriminate.
      * intros res' data' [= <-]. rewrite Hdata. intros [= <-]. reflexivity.
      * intros res' e' [= <-]. rewrite Hdata. discriminate.
    + eexists. split; [reflexivity|]. cbn.
      repeat split; try discriminate.
      * intros res' data' [= <-]. rewrite Hdata. discriminate.
      * intros res' e' [= <-]. rewrite Hdata. intros [= <-]. reflexivity.
  - intros _. eexists. split; [reflexivity|]. cbn.
    repeat split; try discriminate.
    intros e' [= <-]. reflexivity.
Qed.

(** ** Submissions that succeed *)

Lemma submit_settle_success (submitted s : state finite) l outcome now created data :
  jobs s = VArr l ->
  succeeds outcome data ->
  submit_settle submitted outcome now created s
  = Normal (setLoading false
              (setDescription "" (setTitle ""
                 (setResponse data
                    (setJobs (VArr (take 30 (new_job (title submitted) now created data :: l)))
                       s))))).
Proof.
  intros Hjobs (res & -> & Hok & Hdata).
  unfold submit_settle. cbn. rewrite Hdata. cbn. rewrite Hok.
  unfold prepend_job. rewrite Hjobs. reflexivity.
Qed.

Lemma submit_one_success s l (sub : submission finite) data :
  jobs s = VArr l ->
  succeeds (answer sub) data ->
  exists s',
    submit_one s sub = Normal s'
    /\ jobs s' = VArr (take 30 (job_of (sub, data) :: l)).
Proof.
  intros Hjobs Hok. unfold submit_one, submitFeature.
  erewrite submit_settle_success; [|cbn; exact Hjobs|exact Hok].
  eexists. split; reflexivity.
Qed.

(** The list after a run of submissions, one prepend-and-cut at a time. *)
Lemma submit_each_success s0 l0 (done : list (submission finite * jsval finite)) :
  jobs s0 = VArr l0 ->
  Forall (fun sd => succeeds (answer sd.1) sd.2) done ->
  exists s1,
    submit_each s0 (map fst done) = Normal s1
    /\ jobs s1 = VArr (fold_left (fun acc j => take 30 (j :: acc)) (map job_of done) l0).
Proof.
  intros Hjobs Hall. revert s0 l0 Hjobs.
  induction Hall as [|[sub data] done Hsd Hall IH]; intros s0 l0 Hjobs.
  - exists s0. split; [reflexivity | exact Hjobs].
  - destruct (submit_one_success s0 l0 sub data Hjobs Hsd) as (s' & Hs' & Hj').
    destruct (IH s' _ Hj') as (s1 & Hs1 & Hj1).
    exists s1. split; [|exact Hj1].
    cbn. rewrite Hs'. exact Hs1.
Qed.

Lemma take_app_take {A} (a b : list A) (n m : nat) :
  n <= m -> take n (a ++ take m b) = take n (a ++ b).
Proof.
  revert n. induction a as [|x a IH]; intros n Hnm; cbn.
  - rewrite take_take. f_equal. lia.
  - destruct n as [|n]; [reflexivity|]. cbn. f_equal. apply IH. lia.
Qed.

Lemma prepend_and_cut_closed {A} (js : list A) (l0 : list A) :
  js <> [] ->
  fold_left (fun acc j => take 30 (j :: acc)) js l0 = take 30 (rev js ++ l0).
Proof.
  revert l0. induction js as [|j js IH]; intros l0 Hne; [contradiction|].
  cbn [fold_left rev]. destruct js as [|j' js].
  - reflexivity.
  - rewrite IH by discriminate.
    rewrite take_app_take by lia.
    rewrite <- app_assoc. reflexivity.
Qed.

(** C1.  After any run of successful submissions from any job list, one
    more successful submission puts the new job at the head, keeps the
    previous entries behind it in their order, and cuts the list at 30; the
    list is then the 30 most recent jobs, most recent first. *)
Theorem jobs_keep_30_most_recent_first s0 l0
    (done : list (submission finite * jsval finite))
    (last : submission finite) (data : jsval finite) :
  jobs s0 = VArr l0 ->
  Forall (fun sd => succeeds (answer sd.1) sd.2) done ->
  succeeds (answer last) data ->
  exists s1 l1 s2,
    submit_each s0 (map fst done) = Normal s1
    /\ jobs s1 = VArr l1
    /\ submit_one s1 last = Normal s2
    /\ jobs s2 = VArr (job_of (last, data) :: take 29 l1)
    /\ job_of (last, data) :: take 29 l1
       = take 30 (rev (map job_of (done ++ [(last, data)])) ++ l0)
    /\ length (job_of (last, data) :: take 29 l1) <= 30.
Proof.
  intros Hjobs Hall Hlast.
  destruct (submit_each_success s0 l0 done Hjobs Hall) as (s1 & Hs1 & Hj1).
  destruct (submit_one_success s1 _ last data Hj1 Hlast) as (s2 & Hs2 & Hj2).
  eexists s1, _, s2. split; [exact Hs1|]. split; [exact Hj1|].
  split; [exact Hs2|]. split; [exact Hj2|]. split.
  - change (job_of (last, data) :: take 29 ?l) with (take 30 (job_of (last, data) :: l)).
    rewrite map_app, rev_app_distr. cbn [map rev app].
    destruct done as [|sd done]; [reflexivity|].
    rewrite prepend_and_cut_closed by discriminate.
    apply (take_app_take [job_of (last, data)]). lia.
  - cbn. rewrite length_take. lia.
Qed.

(** *** Whatever else happens in between *)

Lemma handle_jobs s (e : event finite) l :
  jobs s = VArr l ->
  exists s',
    handle s e = Normal s'
    /\ jobs s' = VArr (match created_by e with
                       | Some job => take 30 (job :: l)
                       | None => l
                       end).
Proof.
  intros Hjobs.
  destruct e as [x | x | x | x | | | | submitted outcome now created];
    try (eexists; split; [reflexivity | exact Hjobs]).
  cbn [handle created_by].
  destruct outcome as [res|e].
  - destruct (ok res) eqn:Hok.
    + destruct (read_data res) as [data|e] eqn:Hdata.
      * rewrite (submit_settle_success submitted s l (Normal res) now created data Hjobs).
        -- eexists. split; reflexivity.
        -- exists res. repeat split; assumption.
      * unfold submit_settle. cbn. rewrite Hdata. cbn.
        eexists. split; [reflexivity | exact Hjobs].
    + destruct (submit_settle_failure submitted s (Normal res) now created Hok)
        as (payload & ->).
      eexists. split; [reflexivity | exact Hjobs].
  - eexists. split; [reflexivity | exact Hjobs].
Qed.

(** X1.  Through any sequence of handler calls, whatever is typed or
    clicked between a submission and its answer and in whatever order
    answers arrive, the job list is the starting list with the jobs of the
    answers that succeeded prepended in their order of arrival, cut at 30
    after each. *)
Theorem jobs_through_any_session s0 l0 (trace : list (event finite)) :
  jobs s0 = VArr l0 ->
  exists s,
    run s0 trace = Normal s
    /\ jobs s = VArr (fold_left (fun acc j => take 30 (j :: acc))
                               (omap created_by trace) l0).
Proof.
  revert s0 l0. induction trace as [|e trace IH]; intros s0 l0 Hjobs.
  - exists s0. split; [reflexivity | exact Hjobs].
  - destruct (handle_jobs s0 e l0 Hjobs) as (s1 & Hs1 & Hj1).
    destruct (IH s1 _ Hj1) as (s & Hs & Hj).
    exists s. split.
    + cbn. rewrite Hs1. exact Hs.
    + rewrite Hj. cbn [omap list_omap]. destruct (created_by e); reflexivity.
Qed.

(** ** Job ids *)

Lemma prop_id_new_job (t : string) (now created : finite) data :
  prop "id" (new_job t now created data) = id_at now.
Proof. reflexivity. Qed.

Lemma id_at_inj : Inj (=) (=) (id_at (finite := finite)).
Proof. intros a b [= ->]. reflexivity. Qed.

(** C8, given distinct clock readings.  The [id] of a job is the clock
    reading taken when it was created; after a run of successful
    submissions the ids in the list are pairwise distinct provided those
    clock readings were pairwise distinct and none of them was already an
    id in the starting list, whose ids were distinct. *)
Theorem job_ids_distinct_when_clock_readings_are s0 l0
    (done : list (submission finite * jsval finite)) :
  jobs s0 = VArr l0 ->
  Forall (fun sd => succeeds (answer sd.1) sd.2) done ->
  NoDup (map (fun sd => clock_id sd.1) done) ->
  NoDup (map (prop "id") l0) ->
  (forall sd, In sd done -> ~ In (id_at (clock_id sd.1)) (map (prop "id") l0)) ->
  (forall sd, prop "id" (job_of sd) = id_at (clock_id sd.1))
  /\ exists s1 l1,
       submit_each s0 (map fst done) = Normal s1
       /\ jobs s1 = VArr l1
       /\ NoDup (map (prop "id") l1).
Proof.
  intros Hjobs Hall Hclock Hold Hfresh. split; [reflexivity|].
  destruct (submit_each_success s0 l0 done Hjobs Hall) as (s1 & Hs1 & Hj1).
  eexists s1, _. split; [exact Hs1|]. split; [exact Hj1|].
  destruct done as [|sd done]; [exact Hold|].
  rewrite prepend_and_cut_closed by discriminate.
  set (js := map job_of (sd :: done)) in *.
  change (map (prop "id") (take 30 (rev js ++ l0)))
    with (prop "id" <$> take 30 (rev js ++ l0)).
  rewrite fmap_take. eapply sublist_NoDup; [|apply sublist_take].
  change (NoDup (map (prop "id") (rev js ++ l0))).
  rewrite map_app, map_rev. apply NoDup_app. split; [|split].
  - apply NoDup_ListNoDup, List.NoDup_rev, NoDup_ListNoDup.
    unfold js. rewrite map_map.
    erewrite map_ext; [|intros a; apply prop_id_new_job].
    rewrite <- (map_map (fun sd => clock_id sd.1) id_at).
    apply (@NoDup_fmap_2 _ _ id_at id_at_inj).
    exact Hclock.
  - intros x Hx Hx'. apply list_elem_of_In in Hx, Hx'.
    apply in_rev in Hx. unfold js in Hx. rewrite map_map in Hx.
    apply in_map_iff in Hx as (sd' & <- & Hin).
    apply (Hfresh sd' Hin). exact Hx'.
  - exact Hold.
Qed.

(** ** [JSON.parse] after [JSON.stringify] *)

Lemma length_append a b : String.length (a +:+ b) = String.length a + String.length b.
Proof.
  induction a as [|c a IH]; [reflexivity|].
  rewrite append_String. cbn. rewrite IH. reflexivity.
Qed.

(** *** String literals *)

Lemma parse_chars_unit (c : ascii) (k : string) :
  parse_chars (quote_unit c +:+ k) = push (String c "") (parse_chars k).
Proof. destruct c as [[] [] [] [] [] [] [] []]; reflexivity. Qed.

Lemma parse_chars_quoted (str rest : string) :
  parse_chars (quote_units str +:+ String quote_char rest) = Some (str, rest).
Proof.
  induction str as [|c str IH]; [reflexivity|].
  cbn [quote_units]. rewrite append_assoc, parse_chars_unit, IH. reflexivity.
Qed.

Lemma QuoteJSONString_append (str rest : string) :
  QuoteJSONString str +:+ rest
  = String quote_char (quote_units str +:+ String quote_char rest).
Proof.
  unfold QuoteJSONString. rewrite append_String, append_assoc. reflexivity.
Qed.

(** *** Number tokens *)

Lemma span_num_token (tok rest : string) :
  all_num_chars tok = true -> ends_token rest ->
  span_num (tok +:+ rest) = (tok, rest).
Proof.
  intros Htok Hrest. induction tok as [|c tok IH].
  - change (span_num rest = (EmptyString, rest)).
    destruct rest as [|d rest]; [reflexivity|].
    cbn in *. rewrite Hrest. reflexivity.
  - cbn in Htok. apply andb_true_iff in Htok as [Hc Htok].
    rewrite append_String. cbn [span_num]. rewrite Hc, (IH Htok). reflexivity.
Qed.

Lemma num_char_opens_number (c : ascii) :
  is_num_char c = true ->
  opens_value c
  /\ Ascii.eqb c "{" = false /\ Ascii.eqb c "[" = false
  /\ Ascii.eqb c quote_char = false /\ Ascii.eqb c "t" = false
  /\ Ascii.eqb c "f" = false /\ Ascii.eqb c "n" = false.
Proof.
  destruct c as [[] [] [] [] [] [] [] []]; intros H;
    try discriminate H; repeat split.
Qed.

Lemma skip_ws_value (c : ascii) (r : string) :
  opens_value c -> skip_ws (String c r) = String c r.
Proof. intros [H _]. cbn. rewrite H. reflexivity. Qed.

(** *** Property order *)

Lemma has_key_keys (k : string) (acc : list (string * jsval finite)) :
  has_key k acc = existsb (String.eqb k) (map fst acc).
Proof.
  unfold has_key. induction acc as [|[k' v'] acc IH]; [reflexivity|].
  cbn. rewrite IH. reflexivity.
Qed.

Lemma insert_index_last (n : N) (k : string) v (acc : list (string * jsval finite)) :
  forallb (fun k' => match array_index k' with
                     | Some n' => (n' <? n)%N
                     | None => false
                     end) (map fst acc) = true ->
  insert_index n k v acc = acc ++ [(k, v)].
Proof.
  induction acc as [|[k' v'] acc IH]; [reflexivity|].
  cbn [map fst forallb insert_index]. intros H.
  apply andb_true_iff in H as [Hk' Hacc].
  destruct (array_index k') as [n'|]; [|discriminate].
  rewrite Hk', (IH Hacc). reflexivity.
Qed.

Lemma define_property_new (k : string) v (acc : list (string * jsval finite)) :
  key_fits (map fst acc) k = true ->
  define_property acc (k, v) = acc ++ [(k, v)].
Proof.
  unfold key_fits, define_property. intros H.
  apply andb_true_iff in H as [Hnew Hord].
  rewrite has_key_keys. apply negb_true_iff in Hnew. rewrite Hnew.
  destruct (array_index k) as [n|]; [|reflexivity].
  apply insert_index_last. exact Hord.
Qed.

Lemma build_object_in_order (ps acc : list (string * jsval finite)) :
  keys_in_order (map fst acc) (map fst ps) = true ->
  fold_left define_property ps acc = acc ++ ps.
Proof.
  revert acc. induction ps as [|[k v] ps IH]; intros acc H.
  - rewrite app_nil_r. reflexivity.
  - cbn [map fst keys_in_order] in H. apply andb_true_iff in H as [Hk Hps].
    cbn [fold_left]. rewrite (define_property_new k v acc Hk).
    rewrite IH.
    + rewrite <- app_assoc. reflexivity.
    + rewrite map_app. exact Hps.
Qed.

(** *** Values *)

Lemma parse_value_S (fuel : nat) (text : string) :
  parse_value (S fuel) text
  = read_value (parse_elements fuel) (parse_members fuel) text.
Proof. reflexivity. Qed.

Lemma parse_elements_S (fuel : nat) (text : string) :
  parse_elements (S fuel) text
  = read_elements (parse_value fuel) (parse_elements fuel) text.
Proof. reflexivity. Qed.

Lemma parse_members_S (fuel : nat) (text : string) :
  parse_members (S fuel) text
  = read_members (parse_value fuel) (parse_members fuel) text.
Proof. reflexivity. Qed.

Lemma jsval_induction (P : jsval finite -> Prop) :
  P VNull ->
  (forall b, P (VBool b)) ->
  (forall n, P (VNum n)) ->
  (forall str, P (VStr str)) ->
  (forall xs, Forall P xs -> P (VArr xs)) ->
  (forall props, Forall (fun kv => P kv.2) props -> P (VObj props)) ->
  forall v, P v.
Proof.
  intros Hnull Hbool Hnum Hstr Harr Hobj.
  fix IH 1. intros [| b | n | str | xs | props].
  - exact Hnull.
  - apply Hbool.
  - apply Hnum.
  - apply Hstr.
  - apply Harr. induction xs as [|x xs IHxs]; constructor; [apply IH | exact IHxs].
  - apply Hobj. induction props as [|[k x] props IHp]; constructor; [apply IH | exact IHp].
Qed.

Lemma stringify_object (props : list (string * jsval finite)) :
  JSON_stringify (VObj props) = "{" +:+ join_comma (map member_text props) +:+ "}".
Proof.
  cbn [JSON_stringify]. rewrite (map_ext _ member_text); [reflexivity|].
  intros [k x]. reflexivity.
Qed.

Lemma join_comma_cons (x : string) (xs : list string) :
  xs <> [] -> join_comma (x :: xs) = x +:+ "," +:+ join_comma xs.
Proof. destruct xs; [contradiction | reflexivity]. Qed.

Section RoundTrip.

Hypothesis laws : lawful_engine engine.

Lemma stringify_opens v :
  plain_json v = true ->
  exists c r, JSON_stringify v = String c r /\ opens_value c.
Proof.
  destruct v as [| [] | [f| | |] | str | xs | props]; cbn [plain_json]; intros H;
    try discriminate H.
  - exists "n"%char, "ull". repeat split.
  - exists "t"%char, "rue". repeat split.
  - exists "f"%char, "alse". repeat split.
  - pose proof (number_not_empty laws f) as Hne.
    pose proof (number_token laws f) as Hchars.
    cbn [JSON_stringify stringify_number].
    destruct (Number_toString f) as [|c r]; [contradiction|].
    exists c, r. split; [reflexivity|].
    cbn in Hchars. apply andb_true_iff in Hchars as [Hc _].
    apply num_char_opens_number. exact Hc.
  - eexists quote_char, _. split; [reflexivity|]. repeat split.
  - eexists "["%char, _. split; [reflexivity|]. repeat split.
  - eexists "{"%char, _. split; [reflexivity|]. repeat split.
Qed.

Lemma parse_elements_joined (xs : list (jsval finite)) :
  Forall reads_back xs ->
  xs <> [] ->
  forall (fuel : nat) (rest : string),
    String.length (join_comma (map JSON_stringify xs)) + 1 <= fuel ->
    parse_elements fuel (join_comma (map JSON_stringify xs) +:+ String "]" rest)
    = Some (xs, rest).
Proof.
  induction 1 as [|x xs Hx Hxs IH]; intros Hne fuel rest Hfuel; [contradiction|].
  destruct fuel as [|fuel]; [lia|].
  destruct xs as [|y ys].
  - cbn [map join_comma] in *. rewrite parse_elements_S. unfold read_elements.
    rewrite (Hx fuel (String "]" rest)); [|lia|reflexivity].
    reflexivity.
  - cbn [map] in *. rewrite join_comma_cons in * by discriminate.
    rewrite !length_append in Hfuel. cbn [String.length] in Hfuel.
    rewrite !append_assoc. rewrite parse_elements_S. unfold read_elements.
    rewrite append_String.
    rewrite (Hx fuel); [|lia|reflexivity].
    change (skip_ws (String "," ?r)) with (String "," r).
    cbn [strip_prefix]. change (Ascii.eqb "," ",") with true. cbn iota.
    change ("" +:+ ?a) with a.
    rewrite IH; [reflexivity|discriminate|lia].
Qed.

Lemma parse_members_joined (props : list (string * jsval finite)) :
  Forall (fun kv => reads_back kv.2) props ->
  props <> [] ->
  forall (fuel : nat) (rest : string),
    String.length (join_comma (map member_text props)) + 1 <= fuel ->
    parse_members fuel (join_comma (map member_text props) +:+ String "}" rest)
    = Some (props, rest).
Proof.
  induction 1 as [|[k x] props Hx Hprops IH]; intros Hne fuel rest Hfuel; [contradiction|].
  destruct fuel as [|fuel]; [lia|].
  cbn [snd] in Hx.
  destruct props as [|kv props].
  - cbn [map join_comma] in *. unfold member_text in *. cbn [fst snd] in *.
    rewrite !length_append in Hfuel.
    rewrite !append_assoc, QuoteJSONString_append.
    rewrite parse_members_S. unfold read_members.
    change (skip_ws (String quote_char ?r)) with (String quote_char r).
    cbn [strip_prefix]. change (Ascii.eqb quote_char quote_char) with true. cbn iota.
    rewrite parse_chars_quoted.
    rewrite append_String.
    change (skip_ws (String ":" ?r)) with (String ":" r).
    cbn [strip_prefix]. change (Ascii.eqb ":" ":") with true. cbn iota.
    change ("" +:+ ?a) with a.
    rewrite (Hx fuel (String "}" rest)); [|lia|reflexivity].
    reflexivity.
  - cbn [map] in *. rewrite join_comma_cons in * by discriminate.
    unfold member_text at 1. unfold member_text at 1 in Hfuel. cbn [fst snd] in *.
    rewrite !length_append in Hfuel. cbn [String.length] in Hfuel.
    rewrite !append_assoc, QuoteJSONString_append.
    rewrite parse_members_S. unfold read_members.
    change (skip_ws (String quote_char ?r)) with (String quote_char r).
    cbn [strip_prefix]. change (Ascii.eqb quote_char quote_char) with true. cbn iota.
    rewrite parse_chars_quoted.
    rewrite append_String.
    change (skip_ws (String ":" ?r)) with (String ":" r).
    cbn [strip_prefix]. change (Ascii.eqb ":" ":") with true. cbn iota.
    change ("" +:+ ?a) with a.
    rewrite append_String.
    rewrite (Hx fuel); [|lia|reflexivity].
    change (skip_ws (String "," ?r)) with (String "," r).
    cbn [strip_prefix]. change (Ascii.eqb "," ",") with true. cbn iota.
    change ("" +:+ ?a) with a.
    rewrite IH; [reflexivity|discriminate|lia].
Qed.

Lemma forallb_reads_back (xs : list (jsval finite)) :
  Forall (fun v => plain_json v = true -> reads_back v) xs ->
  forallb plain_json xs = true ->
  Forall reads_back xs.
Proof.
  induction 1 as [|x xs Hx _ IH]; intros Hall; constructor;
    cbn in Hall; apply andb_true_iff in Hall as [H1 H2]; auto.
Qed.

Lemma forallb_members_read_back (props : list (string * jsval finite)) :
  Forall (fun kv => plain_json kv.2 = true -> reads_back kv.2) props ->
  forallb (fun '(_, x) => plain_json x) props = true ->
  Forall (fun kv => reads_back kv.2) props.
Proof.
  induction 1 as [|[k x] props Hx _ IH]; intros Hall; constructor;
    cbn in Hall; apply andb_true_iff in Hall as [H1 H2]; auto.
Qed.

Lemma joined_opens (texts : list string) (t : string) :
  (exists c r, t = String c r /\ opens_value c) ->
  exists c r, join_comma (t :: texts) = String c r /\ opens_value c.
Proof.
  intros (c & r & -> & Hc). destruct texts as [|t' texts].
  - exists c, r. split; [reflexivity | exact Hc].
  - eexists c, _. split; [|exact Hc]. cbn [join_comma]. rewrite append_String. reflexivity.
Qed.

Lemma plain_json_reads_back v : plain_json v = true -> reads_back v.
Proof.
  induction v as [| b | n | str | xs IH | props IH] using jsval_induction;
    intros Hplain fuel rest Hfuel Hrest.
  - destruct fuel as [|fuel]; [cbn in Hfuel; lia|]. reflexivity.
  - destruct fuel as [|fuel]; [destruct b; cbn in Hfuel; lia|].
    destruct b; reflexivity.
  - destruct n as [f| | |]; try discriminate Hplain.
    pose proof (number_read_back laws f) as Hread.
    pose proof (number_not_empty laws f) as Hne.
    pose proof (number_token laws f) as Hchars.
    cbn [JSON_stringify stringify_number] in *.
    destruct (Number_toString f) as [|c r] eqn:Htok; [contradiction|].
    destruct fuel as [|fuel]; [cbn in Hfuel; lia|].
    assert (Hc : is_num_char c = true).
    { cbn in Hchars. apply andb_true_iff in Hchars as [Hc _]. exact Hc. }
    destruct (num_char_opens_number c Hc) as (Hopen & H1 & H2 & H3 & H4 & H5 & H6).
    rewrite parse_value_S. unfold read_value.
    rewrite append_String, (skip_ws_value _ _ Hopen).
    rewrite H1, H2, H3, H4, H5, H6, Hc.
    rewrite <- append_String, (span_num_token _ _ Hchars Hrest), Hread.
    reflexivity.
  - destruct fuel as [|fuel]; [cbn in Hfuel; lia|].
    cbn [JSON_stringify]. rewrite QuoteJSONString_append.
    rewrite parse_value_S. unfold read_value.
    change (skip_ws (String quote_char ?r)) with (String quote_char r).
    cbv beta iota.
    change (Ascii.eqb quote_char "{") with false.
    change (Ascii.eqb quote_char "[") with false.
    change (Ascii.eqb quote_char quote_char) with true. cbn iota.
    rewrite parse_chars_quoted. reflexivity.
  - cbn [plain_json] in Hplain.
    pose proof (forallb_reads_back xs IH Hplain) as Hxs.
    cbn [JSON_stringify] in *.
    rewrite !length_append in Hfuel. cbn [String.length] in Hfuel.
    destruct fuel as [|fuel]; [lia|].
    rewrite !append_assoc. change ("[" +:+ ?a) with (String "[" a).
    change ("]" +:+ rest) with (String "]" rest).
    rewrite parse_value_S. unfold read_value.
    change (skip_ws (String "[" ?r)) with (String "[" r).
    cbv beta iota.
    change (Ascii.eqb "[" "{") with false.
    change (Ascii.eqb "[" "[") with true. cbn iota.
    destruct xs as [|x xs]; [reflexivity|].
    destruct (joined_opens (map JSON_stringify xs) (JSON_stringify x))
      as (c & r & Hjoin & Hopen).
    { apply stringify_opens. cbn in Hplain. apply andb_true_iff in Hplain as [H _]. exact H. }
    cbn [map] in *. rewrite Hjoin at 1. rewrite append_String.
    rewrite (skip_ws_value _ _ Hopen). cbn [strip_prefix].
    destruct Hopen as (_ & -> & _).
    rewrite (parse_elements_joined _ Hxs); [reflexivity|discriminate|cbn [map]; lia].
  - cbn [plain_json] in Hplain. apply andb_true_iff in Hplain as [Hkeys Hplain].
    pose proof (forallb_members_read_back props IH Hplain) as Hprops.
    rewrite stringify_object in *.
    rewrite !length_append in Hfuel. cbn [String.length] in Hfuel.
    destruct fuel as [|fuel]; [lia|].
    rewrite !append_assoc. change ("{" +:+ ?a) with (String "{" a).
    change ("}" +:+ rest) with (String "}" rest).
    rewrite parse_value_S. unfold read_value.
    change (skip_ws (String "{" ?r)) with (String "{" r).
    cbv beta iota.
    change (Ascii.eqb "{" "{") with true. cbn iota.
    destruct props as [|[k x] props]; [reflexivity|].
    destruct (joined_opens (map member_text props) (member_text (k, x)))
      as (c & r & Hjoin & Hopen).
    { eexists quote_char, _. split; [reflexivity|]. repeat split. }
    cbn [map] in *. rewrite Hjoin at 1. rewrite append_String.
    rewrite (skip_ws_value _ _ Hopen). cbn [strip_prefix].
    destruct Hopen as (_ & _ & ->).
    rewrite (parse_members_joined _ Hprops); [|discriminate|cbn [map]; lia].
    unfold build_object.
    rewrite (build_object_in_order ((k, x) :: props) [] Hkeys). reflexivity.
Qed.

(** [JSON.parse(JSON.stringify(v))] is [v] for every plain value. *)
Lemma JSON_parse_stringify v :
  plain_json v = true -> JSON_parse (JSON_stringify v) = Normal v.
Proof.
  intros Hplain. unfold JSON_parse.
  rewrite <- (append_nil_r (JSON_stringify v)) at 2.
  rewrite (plain_json_reads_back v Hplain); [reflexivity | lia | exact I].
Qed.

Lemma stringify_not_empty v : plain_json v = true -> JSON_stringify v <> "".
Proof.
  intros Hplain. destruct (stringify_opens v Hplain) as (c & r & -> & _). discriminate.
Qed.

(** ** Persisting and loading the job list *)

Lemma getItem_after_setItem (k text : string) (ls ls' : Storage) :
  setItem k text ls = Normal ls' -> getItem k ls' = Normal (Some text).
Proof.
  unfold setItem, getItem. destruct (denied ls); [discriminate|].
  destruct (capacity ls) as [cap|].
  - destruct (Nat.leb _ cap); [|discriminate].
    intros [= <-]. cbn. rewrite lookup_insert_eq. reflexivity.
  - intros [= <-]. cbn. rewrite lookup_insert_eq. reflexivity.
Qed.

Lemma load_jobs_effect_parsed (ls : Storage) (text : string) v :
  getItem "ac_jobs" ls = Normal (Some text) ->
  text <> "" ->
  JSON_parse text = Normal v ->
  load_jobs_effect ls = Some v.
Proof.
  intros Hget Hne Hparse. unfold load_jobs_effect. rewrite Hget. cbn.
  destruct (String.eqb_spec text ""); [contradiction|].
  rewrite Hparse. reflexivity.
Qed.

Lemma mount_jobs_parsed (h : host) (ls : Storage) (text : string) v :
  getItem "ac_jobs" ls = Normal (Some text) ->
  text <> "" ->
  JSON_parse text = Normal v ->
  exists s ls', mount h ls = Normal (s, ls') /\ jobs s = v.
Proof.
  intros Hget Hne Hparse.
  destruct (mount_returns h ls) as (d & s & ls' & _ & Hm & _ & _ & Hj).
  exists s, ls'. split; [exact Hm|].
  rewrite Hj, (load_jobs_effect_parsed ls text v Hget Hne Hparse). reflexivity.
Qed.

(** C3, for lists that JSON text denotes exactly.  A job list in which
    every number is finite and other than negative zero, once written by
    the persist effect to a storage that accepts the write, is what the
    load effect hands to [setJobs], and what the next mount shows: the same
    jobs in the same order. *)
Theorem persisted_jobs_are_reloaded (h : host) (ls ls' : Storage) l :
  plain_json (VArr l) = true ->
  setItem "ac_jobs" (JSON_stringify (VArr l)) ls = Normal ls' ->
  persist_jobs_effect (VArr l) ls = ls'
  /\ load_jobs_effect ls' = Some (VArr l)
  /\ exists s ls'', mount h ls' = Normal (s, ls'') /\ jobs s = VArr l.
Proof.
  intros Hplain Hset.
  pose proof (getItem_after_setItem _ _ _ _ Hset) as Hget.
  pose proof (stringify_not_empty _ Hplain) as Hne.
  pose proof (JSON_parse_stringify _ Hplain) as Hparse.
  split; [|split].
  - unfold persist_jobs_effect. rewrite Hset. reflexivity.
  - exact (load_jobs_effect_parsed ls' _ _ Hget Hne Hparse).
  - exact (mount_jobs_parsed h ls' _ _ Hget Hne Hparse).
Qed.

(** C9.  Mounting sets the job list to exactly what [JSON.parse] makes of
    the text stored under [ac_jobs], whatever its shape or length; a stored
    array of 31 jobs is loaded as a list of 31 entries. *)
Theorem mount_loads_stored_jobs_unchecked (h : host) :
  (forall (ls : Storage) (text : string) v,
      getItem "ac_jobs" ls = Normal (Some text) ->
      text <> "" ->
      JSON_parse text = Normal v ->
      load_jobs_effect ls = Some v
      /\ exists s ls', mount h ls = Normal (s, ls') /\ jobs s = v)
  /\ (forall t : finite,
       let l := replicate 31 (new_job "stored" t t VNull) in
       exists s ls',
         mount h (storage_with_jobs (JSON_stringify (VArr l))) = Normal (s, ls')
         /\ jobs s = VArr l
         /\ 30 < length l).
Proof.
  split.
  - intros ls text v Hget Hne Hparse. split.
    + exact (load_jobs_effect_parsed ls text v Hget Hne Hparse).
    + exact (mount_jobs_parsed h ls text v Hget Hne Hparse).
  - intros t l.
    assert (Hplain : plain_json (VArr l) = true) by reflexivity.
    destruct (mount_jobs_parsed h (storage_with_jobs (JSON_stringify (VArr l)))
                (JSON_stringify (VArr l)) (VArr l)) as (s & ls' & Hm & Hj).
    + reflexivity.
    + exact (stringify_not_empty _ Hplain).
    + exact (JSON_parse_stringify _ Hplain).
    + exists s, ls'. split; [exact Hm|]. split; [exact Hj|]. cbn. lia.
Qed.

End RoundTrip.

End Properties.

(** * What a running program holds, and what a reload makes of it *)

Section PropertyOrder.

Context {finite : Type}.

Implicit Types (acc : list (string * jsval finite)) (ks seen : list string).

Lemma key_fits_spec (earlier : list string) (k : string) :
  key_fits earlier k = true <-> fits earlier k.
Proof.
  unfold key_fits, fits. rewrite andb_true_iff, negb_true_iff. split.
  - intros [Hnew Hord]. split.
    + intros Hin. apply not_true_iff_false in Hnew. apply Hnew.
      apply existsb_exists. exists k. split; [exact Hin | apply String.eqb_refl].
    + intros n Hn k' Hk'. rewrite Hn in Hord.
      rewrite forallb_forall in Hord. specialize (Hord k' Hk').
      destruct (array_index k') as [n'|]; [|discriminate].
      exists n'. split; [reflexivity|]. apply N.ltb_lt. exact Hord.
  - intros [Hnew Hord]. split.
    + apply not_true_iff_false. intros Hex. apply existsb_exists in Hex as (x & Hx & Hkx).
      apply String.eqb_eq in Hkx as <-. exact (Hnew Hx).
    + destruct (array_index k) as [n|]; [|reflexivity].
      apply forallb_forall. intros k' Hk'.
      destruct (Hord n eq_refl k' Hk') as (n' & -> & Hlt). apply N.ltb_lt. exact Hlt.
Qed.

Lemma key_fits_same_members (e1 e2 : list string) (k : string) :
  (forall x, In x e1 <-> In x e2) -> key_fits e1 k = key_fits e2 k.
Proof.
  intros Hsame. apply eq_true_iff_eq. rewrite !key_fits_spec. unfold fits.
  split; intros [Hnew Hord]; (split; [rewrite Hsame in * || rewrite <- Hsame in *; exact Hnew|]);
    intros n Hn k' Hk'; apply (Hord n Hn); apply Hsame; exact Hk'.
Qed.

Lemma keys_in_order_same_members seen seen' ks :
  (forall x, In x seen <-> In x seen') ->
  keys_in_order seen ks = keys_in_order seen' ks.
Proof.
  revert seen seen'. induction ks as [|k ks IH]; intros seen seen' Hsame; [reflexivity|].
  cbn. rewrite (key_fits_same_members seen seen' k Hsame). f_equal.
  apply IH. intros x. rewrite !in_app_iff, Hsame. reflexivity.
Qed.

Lemma keys_in_order_snoc seen ks (k : string) :
  keys_in_order seen (ks ++ [k]) = keys_in_order seen ks && key_fits (seen ++ ks) k.
Proof.
  revert seen. induction ks as [|k' ks IH]; intros seen; cbn.
  - rewrite app_nil_r, andb_true_r. reflexivity.
  - rewrite IH, <- app_assoc, andb_assoc. reflexivity.
Qed.

(** Every key of an ordered list fits the keys seen before the list. *)
Lemma keys_in_order_fits seen ks (k : string) :
  keys_in_order seen ks = true -> In k ks -> fits seen k.
Proof.
  revert seen. induction ks as [|k' ks IH]; intros seen Hord Hin; [destruct Hin|].
  cbn in Hord. apply andb_true_iff in Hord as [Hk' Hks].
  destruct Hin as [->|Hin].
  - apply key_fits_spec. exact Hk'.
  - destruct (IH _ Hks Hin) as [Hnew Hidx]. split.
    + intros H. apply Hnew. apply in_app_iff. left. exact H.
    + intros n Hn x Hx. apply (Hidx n Hn). apply in_app_iff. left. exact Hx.
Qed.

Lemma array_index_canonical (k : string) (n : N) :
  array_index k = Some n -> k = decimal_of_N n.
Proof.
  unfold array_index. destruct (digits_val k 0) as [m|]; [|discriminate].
  destruct (m <? 4294967295)%N; [|discriminate].
  destruct (String.eqb_spec (decimal_of_N m) k) as [<-|]; [|discriminate].
  intros [= <-]. reflexivity.
Qed.

(** A key that is new and, if any key of [ks] is an array index, is a
    smaller array index, may be counted among the keys seen before [ks]. *)
Lemma keys_in_order_seen_more seen ks (k : string) :
  keys_in_order seen ks = true ->
  ~ In k ks ->
  (forall k' n', In k' ks -> array_index k' = Some n' ->
                 exists n, array_index k = Some n /\ (n < n')%N) ->
  keys_in_order (k :: seen) ks = true.
Proof.
  revert seen. induction ks as [|k' ks IH]; intros seen Hord Hnew Hsmall; [reflexivity|].
  cbn in Hord |- *. apply andb_true_iff in Hord as [Hk' Hks].
  apply andb_true_iff. split.
  - apply key_fits_spec. apply key_fits_spec in Hk' as [Hk'new Hk'ord]. split.
    + intros [->|H]; [apply Hnew; left; reflexivity | exact (Hk'new H)].
    + intros n' Hn' x [<-|Hx].
      * apply (Hsmall k' n'); [left; reflexivity | exact Hn'].
      * exact (Hk'ord n' Hn' x Hx).
  - apply IH.
    + exact Hks.
    + intros H. apply Hnew. right. exact H.
    + intros k'' n'' Hin. apply Hsmall. right. exact Hin.
Qed.

Lemma insert_index_in_order (n : N) (k : string) v acc seen :
  array_index k = Some n ->
  keys_in_order seen (map fst acc) = true ->
  ~ In k (seen ++ map fst acc) ->
  (forall k', In k' seen -> exists n', array_index k' = Some n' /\ (n' < n)%N) ->
  keys_in_order seen (map fst (insert_index n k v acc)) = true.
Proof.
  intros Hk. revert seen. induction acc as [|[k' v'] acc IH]; intros seen Hord Hnew Hseen.
  - cbn. rewrite andb_true_r. apply key_fits_spec. split.
    + intros H. apply Hnew. apply in_app_iff. left. exact H.
    + intros m Hm. rewrite Hk in Hm. injection Hm as <-. exact Hseen.
  - cbn [map fst keys_in_order] in Hord. pose proof Hord as Hall.
    apply andb_true_iff in Hord as [Hk' Hacc].
    assert (Hkk' : k <> k').
    { intros ->. apply Hnew. apply in_app_iff. right. left. reflexivity. }
    assert (Hfront : key_fits seen k = true).
    { apply key_fits_spec. split.
      - intros H. apply Hnew. apply in_app_iff. left. exact H.
      - intros m Hm. rewrite Hk in Hm. injection Hm as <-. exact Hseen. }
    assert (Hstay :
      (forall k'' n'', In k'' (k' :: map fst acc) -> array_index k'' = Some n'' ->
                       exists m, array_index k = Some m /\ (m < n'')%N) ->
      keys_in_order seen (k :: k' :: map fst acc) = true).
    { intros Hsmall.
      change (key_fits seen k && keys_in_order (seen ++ [k]) (k' :: map fst acc) = true).
      rewrite Hfront. cbn [andb].
      rewrite (keys_in_order_same_members (seen ++ [k]) (k :: seen)).
      - apply keys_in_order_seen_more; [exact Hall| |exact Hsmall].
        intros H. apply Hnew. apply in_app_iff. right. exact H.
      - intros x. rewrite in_app_iff. cbn. tauto. }
    cbn [insert_index]. destruct (array_index k') as [n'|] eqn:Hn'.
    + destruct (n' <? n)%N eqn:Hlt.
      * cbn [map fst keys_in_order]. rewrite Hk'. cbn [andb]. apply IH.
        -- exact Hacc.
        -- intros H. apply Hnew. rewrite in_app_iff in H |- *. cbn.
           destruct H as [H|H]; [|tauto].
           apply in_app_iff in H as [H|[<-|[]]]; tauto.
        -- intros x Hx. apply in_app_iff in Hx as [Hx|[<-|[]]]; [exact (Hseen x Hx)|].
           exists n'. split; [exact Hn' | apply N.ltb_lt; exact Hlt].
      * apply Hstay. intros k'' n'' Hin Hn''. exists n. split; [exact Hk|].
        apply N.ltb_ge in Hlt.
        assert (n <> n').
        { intros <-. apply Hkk'.
          rewrite (array_index_canonical _ _ Hk), (array_index_canonical _ _ Hn').
          reflexivity. }
        destruct Hin as [<-|Hin].
        -- rewrite Hn' in Hn''. injection Hn'' as <-. lia.
        -- destruct (keys_in_order_fits _ _ _ Hacc Hin) as [_ Hsm].
           destruct (Hsm n'' Hn'' k') as (m & Hm & Hmn'').
           { apply in_app_iff. right. left. reflexivity. }
           rewrite Hn' in Hm. injection Hm as <-. lia.
    + apply Hstay. intros k'' n'' Hin Hn''. exfalso.
      destruct Hin as [<-|Hin]; [congruence|].
      destruct (keys_in_order_fits _ _ _ Hacc Hin) as [_ Hsm].
      destruct (Hsm n'' Hn'' k') as (m & Hm & _).
      { apply in_app_iff. right. left. reflexivity. }
      congruence.
Qed.

Lemma replace_value_keys (k : string) v acc :
  map fst (replace_value k v acc) = map fst acc.
Proof.
  induction acc as [|[k' v'] acc IH]; [reflexivity|].
  cbn. destruct (String.eqb k k'); cbn; [reflexivity | rewrite IH; reflexivity].
Qed.

Lemma has_key_false (k : string) acc : has_key k acc = false -> ~ In k (map fst acc).
Proof.
  rewrite has_key_keys. intros Hno Hin.
  apply not_true_iff_false in Hno. apply Hno.
  apply existsb_exists. exists k. split; [exact Hin | apply String.eqb_refl].
Qed.

(** [CreateDataProperty] keeps an object in property order. *)
Lemma define_property_in_order acc (kv : string * jsval finite) :
  keys_in_order [] (map fst acc) = true ->
  keys_in_order [] (map fst (define_property acc kv)) = true.
Proof.
  destruct kv as [k v]. intros Hord. unfold define_property.
  destruct (has_key k acc) eqn:Hhas.
  - rewrite replace_value_keys. exact Hord.
  - apply has_key_false in Hhas.
    destruct (array_index k) as [n|] eqn:Hk.
    + apply insert_index_in_order; [exact Hk | exact Hord | exact Hhas | intros k' []].
    + rewrite map_app. cbn [map fst]. rewrite keys_in_order_snoc, Hord. cbn.
      apply key_fits_spec. split; [exact Hhas|]. intros n Hn. congruence.
Qed.

Lemma build_object_keys_in_order (members : list (string * jsval finite)) :
  keys_in_order [] (map fst (build_object members)) = true.
Proof.
  unfold build_object.
  assert (H : keys_in_order [] (map fst (@nil (string * jsval finite))) = true) by reflexivity.
  revert H. generalize (@nil (string * jsval finite)) as acc.
  induction members as [|kv members IH]; intros acc Hacc; [exact Hacc|].
  cbn. apply IH. apply define_property_in_order. exact Hacc.
Qed.

(** The values of the object built are values of the members read. *)
Lemma define_property_values (P : jsval finite -> Prop) acc (kv : string * jsval finite) :
  Forall (fun p => P p.2) acc -> P kv.2 ->
  Forall (fun p => P p.2) (define_property acc kv).
Proof.
  destruct kv as [k v]. intros Hacc Hv. unfold define_property.
  destruct (has_key k acc).
  - induction Hacc as [|[k' v'] acc Hv' Hacc IH]; cbn; [constructor|].
    destruct (String.eqb k k'); constructor; assumption.
  - destruct (array_index k) as [n|].
    + induction Hacc as [|[k' v'] acc Hv' Hacc IH]; cbn.
      * constructor; [exact Hv | constructor].
      * destruct (array_index k') as [n'|]; [destruct (n' <? n)%N|];
          repeat (constructor; try assumption).
    + apply Forall_app. split; [exact Hacc|]. constructor; [exact Hv | constructor].
Qed.

Lemma build_object_values (P : jsval finite -> Prop) (members : list (string * jsval finite)) :
  Forall (fun p => P p.2) members ->
  Forall (fun p => P p.2) (build_object members).
Proof.
  unfold build_object.
  assert (H : Forall (fun p => P p.2) (@nil (string * jsval finite))) by constructor.
  revert H. generalize (@nil (string * jsval finite)) as acc.
  induction members as [|kv members IH]; intros acc Hacc Hall; [exact Hacc|].
  apply Forall_cons in Hall as [Hkv Hall].
  cbn. apply IH; [|exact Hall]. apply define_property_values; assumption.
Qed.

End PropertyOrder.

Section ValuesRead.

Context {finite : Type} {engine : Engine finite}.

Ltac break_match_in H :=
  match type of H with
  | context [match ?x with _ => _ end] => destruct x eqn:?
  end.

Lemma forallb_members (P : jsval finite -> bool) (props : list (string * jsval finite)) :
  Forall (fun p => P p.2 = true) props <-> forallb (fun '(_, x) => P x) props = true.
Proof.
  induction props as [|[k x] props IH]; cbn.
  - split; [reflexivity | constructor].
  - rewrite andb_true_iff, Forall_cons, IH. reflexivity.
Qed.

(** Whatever the reader returns is in property order, at every depth. *)
Lemma parse_in_property_order (fuel : nat) :
  (forall text v rest,
      parse_value fuel text = Some (v, rest) -> in_property_order v = true)
  /\ (forall text xs rest,
        parse_elements fuel text = Some (xs, rest) ->
        forallb in_property_order xs = true)
  /\ (forall text ms rest,
        parse_members fuel text = Some (ms, rest) ->
        Forall (fun p => in_property_order p.2 = true) ms).
Proof.
  induction fuel as [|fuel (IHv & IHe & IHm)]; [repeat split; discriminate|].
  repeat split.
  - intros text v rest H. rewrite parse_value_S in H. unfold read_value in H.
    repeat (break_match_in H; try discriminate H);
      injection H as <- <-; try reflexivity.
    + cbn [in_property_order]. apply andb_true_iff. split.
      * apply build_object_keys_in_order.
      * apply forallb_members.
        apply (build_object_values (fun x => in_property_order x = true)).
        eapply IHm. eassumption.
    + cbn [in_property_order]. eapply IHe. eassumption.
  - intros text xs rest H. rewrite parse_elements_S in H. unfold read_elements, cons_fst in H.
    repeat (break_match_in H; try discriminate H);
      injection H as <- <-; cbn [forallb]; apply andb_true_iff; split;
      try reflexivity; try (eapply IHv; eassumption); try (eapply IHe; eassumption).
  - intros text ms rest H. rewrite parse_members_S in H. unfold read_members, cons_fst in H.
    repeat (break_match_in H; try discriminate H);
      injection H as <- <-; constructor;
      try constructor; try (eapply IHv; eassumption); try (eapply IHm; eassumption).
Qed.

Lemma JSON_parse_in_property_order (text : string) (v : jsval finite) :
  JSON_parse text = Normal v -> in_property_order v = true.
Proof.
  unfold JSON_parse. intros H.
  destruct (parse_value (S (String.length text)) text) as [[v' rest]|] eqn:Hp;
    [|discriminate].
  destruct (skip_ws rest); [|discriminate]. injection H as <-.
  exact (proj1 (parse_in_property_order _) _ _ _ Hp).
Qed.

End ValuesRead.

Section Reload.

Context {finite : Type} {engine : Engine finite}.

Implicit Types (v data : jsval finite) (s : state finite).

Lemma forallb_both {A} (f g h : A -> bool) (l : list A) :
  Forall (fun x => f x = g x && h x) l ->
  forallb f l = forallb g l && forallb h l.
Proof.
  induction 1 as [|x l Hx _ IH]; [reflexivity|].
  cbn. rewrite Hx, IH. destruct (g x), (h x), (forallb g l); reflexivity.
Qed.

Lemma plain_json_halves v : plain_json v = in_property_order v && numbers_exact v.
Proof.
  induction v as [| b | [f| | |] | str | xs IH | props IH] using jsval_induction;
    try reflexivity.
  - cbn [plain_json in_property_order numbers_exact]. apply forallb_both. exact IH.
  - cbn [plain_json in_property_order numbers_exact].
    rewrite <- andb_assoc. f_equal.
    induction IH as [|[k x] props Hx _ IHp]; [reflexivity|].
    cbn in *. rewrite Hx, IHp.
    destruct (in_property_order x), (numbers_exact x),
      (forallb (fun '(_, x0) => in_property_order x0) props); reflexivity.
Qed.

Lemma as_json_exact v : numbers_exact v = true -> as_json v = v.
Proof.
  induction v as [| b | [f| | |] | str | xs IH | props IH] using jsval_induction;
    cbn [numbers_exact as_json]; intros H; try reflexivity; try discriminate H.
  - f_equal. induction IH as [|x xs Hx _ IHxs]; [reflexivity|].
    cbn in H. apply andb_true_iff in H as [H1 H2].
    cbn. rewrite (Hx H1), (IHxs H2). reflexivity.
  - f_equal. induction IH as [|[k x] props Hx _ IHp]; [reflexivity|].
    cbn in H, Hx. apply andb_true_iff in H as [H1 H2].
    cbn. rewrite (Hx H1), (IHp H2). reflexivity.
Qed.

Lemma as_json_keys (props : list (string * jsval finite)) :
  map fst (map (fun '(k, x) => (k, as_json x)) props) = map fst props.
Proof.
  induction props as [|[k x] props IH]; [reflexivity|]. cbn. rewrite IH. reflexivity.
Qed.

Lemma as_json_plain v : in_property_order v = true -> plain_json (as_json v) = true.
Proof.
  induction v as [| b | [f| | |] | str | xs IH | props IH] using jsval_induction;
    cbn [in_property_order as_json plain_json]; intros H; try reflexivity.
  - induction IH as [|x xs Hx _ IHxs]; [reflexivity|].
    cbn in H. apply andb_true_iff in H as [H1 H2].
    cbn. rewrite (Hx H1), (IHxs H2). reflexivity.
  - apply andb_true_iff in H as [Hkeys H]. rewrite as_json_keys, Hkeys. cbn [andb].
    clear Hkeys.
    induction IH as [|[k x] props Hx _ IHp]; [reflexivity|].
    cbn in H, Hx. apply andb_true_iff in H as [H1 H2].
    cbn. rewrite (Hx H1). cbn [andb]. exact (IHp H2).
Qed.

Section WithLaws.

Hypothesis laws : lawful_engine engine.

Lemma stringify_as_json v : JSON_stringify (as_json v) = JSON_stringify v.
Proof.
  induction v as [| b | [f| | |] | str | xs IH | props IH] using jsval_induction;
    try reflexivity.
  - cbn. apply (zero_text laws).
  - cbn [as_json JSON_stringify]. do 2 f_equal.
    induction IH as [|x xs Hx _ IHxs]; [reflexivity|].
    cbn [map]. rewrite Hx.
    destruct xs as [|y ys]; [reflexivity|].
    cbn [map] in IHxs |- *. rewrite !join_comma_cons by discriminate.
    cbn [map] in IHxs. rewrite IHxs. reflexivity.
  - rewrite !stringify_object. cbn [as_json]. rewrite stringify_object. do 2 f_equal.
    induction IH as [|[k x] props Hx _ IHp]; [reflexivity|].
    cbn [map]. cbn [snd] in Hx.
    assert (Hm : member_text (k, as_json x) = member_text (k, x)).
    { unfold member_text. cbn [fst snd]. rewrite Hx. reflexivity. }
    rewrite Hm.
    destruct props as [|kv props]; [reflexivity|].
    cbn [map] in IHp |- *. rewrite !join_comma_cons by discriminate.
    cbn [map] in IHp. rewrite IHp. reflexivity.
Qed.

(** [JSON.parse(JSON.stringify(v))], for any value of a running program. *)
Lemma JSON_parse_stringify_as_json v :
  in_property_order v = true ->
  JSON_parse (JSON_stringify v) = Normal (as_json v).
Proof.
  intros Hord. rewrite <- stringify_as_json.
  apply (JSON_parse_stringify laws). apply as_json_plain. exact Hord.
Qed.

End WithLaws.

(** *** Every reachable job list is in property order *)

Lemma read_data_in_property_order (res : http_response) data :
  read_data res = Normal data -> in_property_order data = true.
Proof.
  unfold read_data. destruct (includes _ _); destruct (body res) as [text|e]; cbn;
    try discriminate.
  - apply JSON_parse_in_property_order.
  - destruct (JSON_parse text) as [v|e] eqn:Hp; cbn.
    + intros [= <-]. exact (JSON_parse_in_property_order _ _ Hp).
    + intros [= <-]. reflexivity.
Qed.

Lemma forallb_take {A} (f : A -> bool) (n : nat) (l : list A) :
  forallb f l = true -> forallb f (take n l) = true.
Proof.
  revert n. induction l as [|x l IH]; intros [|n] H; try reflexivity.
  cbn in H |- *. apply andb_true_iff in H as [-> H]. exact (IH n H).
Qed.

Lemma submit_settle_in_property_order (submitted s s' : state finite) outcome now created :
  in_property_order (jobs s) = true ->
  submit_settle submitted outcome now created s = Normal s' ->
  in_property_order (jobs s') = true.
Proof.
  intros Hord. unfold submit_settle.
  destruct outcome as [res|e]; cbn; [|intros [= <-]; exact Hord].
  destruct (read_data res) as [data|e] eqn:Hdata; cbn; [|intros [= <-]; exact Hord].
  destruct (ok res); [|intros [= <-]; exact Hord].
  pose proof (read_data_in_property_order _ _ Hdata) as Hd.
  unfold prepend_job. destruct (jobs s) as [| | | str | xs |]; cbn; try discriminate.
  - intros [= <-]. cbn. rewrite Hd. cbn.
    apply (forallb_take _ 29). induction (code_points str); [reflexivity | assumption].
  - intros [= <-]. cbn. rewrite Hd. cbn.
    apply (forallb_take _ 29). exact Hord.
Qed.

Lemma load_jobs_effect_in_property_order (ls : Storage) v :
  load_jobs_effect ls = Some v -> in_property_order v = true.
Proof.
  unfold load_jobs_effect. destruct (getItem "ac_jobs" ls) as [saved|e]; cbn;
    [|discriminate].
  destruct (truthy saved) as [text|]; cbn; [|discriminate].
  destruct (JSON_parse text) as [parsed|e] eqn:Hp; cbn; [|discriminate].
  intros [= <-]. exact (JSON_parse_in_property_order _ _ Hp).
Qed.

Theorem reachable_in_property_order s :
  reachable s -> in_property_order (jobs s) = true.
Proof.
  induction 1 as [h ls s ls' Hm | s e s' _ IH Hs].
  - unfold mount in Hm. destruct (getDefaultApiBase h) as [d|e]; [|discriminate].
    cbn in Hm. destruct (load_jobs_effect ls) as [parsed|] eqn:Hl.
    + injection Hm as <- _. exact (load_jobs_effect_in_property_order _ _ Hl).
    + injection Hm as <- _. reflexivity.
  - destruct e as [x | x | x | x | | | | submitted outcome now created];
      try (injection Hs as <-; exact IH).
    exact (submit_settle_in_property_order _ _ _ _ _ _ IH Hs).
Qed.

(** A submission during which nothing else happens is four events. *)
Lemma submit_one_as_events s (sub : submission finite) :
  submit_one s sub
  = run s [Type_title (typed_title sub);
           Type_description (typed_description sub);
           Submit;
           Settle (setDescription (typed_description sub) (setTitle (typed_title sub) s))
                  (answer sub) (clock_id sub) (clock_created sub)].
Proof.
  unfold submit_one, submitFeature. cbn.
  destruct (submit_settle _ _ _ _ _); reflexivity.
Qed.

Lemma reachable_run s (trace : list (event finite)) s' :
  reachable s -> run s trace = Normal s' -> reachable s'.
Proof.
  revert s. induction trace as [|e trace IH]; intros s Hs Hrun.
  - injection Hrun as <-. exact Hs.
  - cbn in Hrun. destruct (handle s e) as [s1|err] eqn:He; [|discriminate].
    apply (IH s1); [|exact Hrun]. exact (reachable_handle s e s1 Hs He).
Qed.

Lemma reachable_submit_one s (sub : submission finite) s' :
  reachable s -> submit_one s sub = Normal s' -> reachable s'.
Proof.
  intros Hs Hsub. rewrite submit_one_as_events in Hsub.
  exact (reachable_run _ _ _ Hs Hsub).
Qed.

(** X2.  What a restart makes of the job list of any reachable state:
    the list as [JSON.stringify] writes it, with [null] for an infinity
    and [0] for negative zero.  It is the same list when its numbers are
    finite and other than negative zero. *)
Theorem reachable_jobs_reloaded (h : host) (ls ls' : Storage) s :
  lawful_engine engine ->
  reachable s ->
  setItem "ac_jobs" (JSON_stringify (jobs s)) ls = Normal ls' ->
  exists s2 ls2,
    mount h (persist_jobs_effect (jobs s) ls) = Normal (s2, ls2)
    /\ jobs s2 = as_json (jobs s)
    /\ (numbers_exact (jobs s) = true -> jobs s2 = jobs s).
Proof.
  intros laws Hreach Hset.
  pose proof (reachable_in_property_order s Hreach) as Hord.
  unfold persist_jobs_effect. rewrite Hset.
  destruct (mount_jobs_parsed h ls' (JSON_stringify (jobs s)) (as_json (jobs s)))
    as (s2 & ls2 & Hm & Hj).
  - exact (getItem_after_setItem _ _ _ _ Hset).
  - rewrite <- (stringify_as_json laws).
    apply (stringify_not_empty laws), as_json_plain, Hord.
  - exact (JSON_parse_stringify_as_json laws _ Hord).
  - exists s2, ls2. split; [exact Hm|]. split; [exact Hj|].
    intros Hnum. rewrite Hj. apply as_json_exact. exact Hnum.
Qed.

End Reload.

(** * The rest of the component *)

Section Configuration.

Context {finite : Type} {engine : Engine finite}.

Implicit Types (s : state finite) (h : host) (ls : Storage).

(** ** Where the base URL comes from *)

Lemma truthy_not_empty (url : string) : url <> "" -> truthy (Some url) = Some url.
Proof. intros Hne. cbn. destruct (String.eqb_spec url ""); [contradiction | reflexivity]. Qed.

(** The first [try] block falls through when the page injects nothing. *)
Lemma window_block_falls_through h :
  (forall url, ~ window_provides h url) ->
  try_catch
    (match window h with
     | Some w => let* v := __APP_API_BASE w in Normal (truthy v)
     | None => Normal None
     end) (fun _ => Normal None) = Normal None.
Proof.
  intros Hw. destruct (window h) as [w|] eqn:Ew; [|reflexivity].
  destruct (__APP_API_BASE w) as [o|e] eqn:Eo; cbn; [|reflexivity].
  destruct (truthy o) as [url|] eqn:Et; [|reflexivity].
  apply truthy_Some in Et as [-> Hne].
  exfalso. apply (Hw url). econstructor; eassumption.
Qed.

(** X3.  The override injected by the host page wins over everything
    else, and the value injected by the bundler is used when the page
    injects none. *)
Theorem resolver_precedence h (url : string) :
  (window_provides h url -> getDefaultApiBase h = Normal url)
  /\ ((forall u, ~ window_provides h u) -> env_provides h url ->
      getDefaultApiBase h = Normal url).
Proof.
  split.
  - intros [w Hw Hget Hne]. unfold getDefaultApiBase.
    rewrite Hw, Hget. cbn [bind try_catch]. rewrite (truthy_not_empty _ Hne). reflexivity.
  - intros Hno [g p e Hg Hp He Hv Hne]. unfold getDefaultApiBase.
    rewrite (window_block_falls_through h Hno). cbn [bind].
    rewrite Hg, Hp. cbn [bind]. rewrite He. cbn [bind]. rewrite Hv. cbn [bind try_catch].
    rewrite (truthy_not_empty _ Hne). reflexivity.
Qed.

Lemma getDefaultApiBase_not_empty h (d : string) :
  getDefaultApiBase h = Normal d -> d <> "".
Proof.
  unfold getDefaultApiBase, bind, try_catch.
  repeat case_match; intros [= <-]; simplify_eq;
    try discriminate;
    match goal with
    | H : truthy _ = Some _ |- _ => apply truthy_Some in H as [_ H]; exact H
    end.
Qed.

Lemma initial_apiBase_not_empty (d : string) ls :
  d <> "" -> initial_apiBase d ls <> "".
Proof.
  intros Hd. unfold initial_apiBase.
  destruct (getItem "ac_api_base" ls) as [saved|e]; cbn; [|exact Hd].
  destruct (truthy saved) as [url|] eqn:Et; [|exact Hd].
  apply truthy_Some in Et as [_ Hne]. exact Hne.
Qed.

(** The storage a mount leaves behind. *)
Lemma mount_storage h ls s ls' :
  mount h ls = Normal (s, ls') ->
  ls' = persist_apiBase_effect (apiBase s) (persist_jobs_effect (VArr []) ls).
Proof.
  unfold mount. destruct (getDefaultApiBase h) as [d|e]; [|discriminate].
  cbn [bind]. destruct (load_jobs_effect ls); intros [= <- <-]; reflexivity.
Qed.

Lemma mount_base_not_empty h ls s ls' :
  mount h ls = Normal (s, ls') -> apiBase s <> "".
Proof.
  intros Hm.
  destruct (mount_returns h ls) as (d & s0 & ls0 & Hd & Hm0 & Hb & _).
  rewrite Hm0 in Hm. injection Hm as <- _.
  rewrite Hb. apply initial_apiBase_not_empty.
  exact (getDefaultApiBase_not_empty h d Hd).
Qed.

(** X4.  The base URL the component starts with is never the empty
    string: the resolver never returns one, and the initialiser takes the
    stored text only when it is not empty; the input box starts with the
    same text. *)
Theorem initial_base_is_never_empty h :
  exists d,
    getDefaultApiBase h = Normal d
    /\ d <> ""
    /\ forall ls,
         apiBase (initial_state (finite := finite) d ls) <> ""
         /\ apiBaseInput (initial_state (finite := finite) d ls)
            = apiBase (initial_state (finite := finite) d ls).
Proof.
  destruct (getDefaultApiBase_returns h) as [d Hd].
  pose proof (getDefaultApiBase_not_empty h d Hd) as Hne.
  exists d. split; [exact Hd|]. split; [exact Hne|].
  intros ls. split; [|reflexivity].
  cbn. apply initial_apiBase_not_empty. exact Hne.
Qed.

(** ** The storage *)

Lemma setItem_accepted (k v : string) ls :
  denied ls = None -> capacity ls = None ->
  setItem k v ls
  = Normal {| items := <[k := v]> (items ls); denied := None; capacity := None |}.
Proof. intros Hd Hc. unfold setItem. rewrite Hd, Hc. reflexivity. Qed.

Lemma getItem_other_key (k k' v : string) ls ls' :
  k <> k' -> setItem k' v ls = Normal ls' -> getItem k ls' = getItem k ls.
Proof.
  intros Hne. unfold setItem, getItem. destruct (denied ls); [discriminate|].
  destruct (capacity ls) as [cap|].
  - destruct (Nat.leb _ cap); [|discriminate].
    intros [= <-]. cbn. rewrite lookup_insert_ne by congruence. reflexivity.
  - intros [= <-]. cbn. rewrite lookup_insert_ne by congruence. reflexivity.
Qed.

Lemma persist_jobs_other_key (k : string) (js : jsval finite) ls :
  k <> "ac_jobs" -> getItem k (persist_jobs_effect js ls) = getItem k ls.
Proof.
  intros Hne. unfold persist_jobs_effect.
  destruct (setItem "ac_jobs" (JSON_stringify js) ls) as [ls'|e] eqn:Hset; [|reflexivity].
  exact (getItem_other_key k _ _ ls ls' Hne Hset).
Qed.

Lemma persist_apiBase_other_key (k base : string) ls :
  k <> "ac_api_base" -> getItem k (persist_apiBase_effect base ls) = getItem k ls.
Proof.
  intros Hne. unfold persist_apiBase_effect.
  destruct (setItem "ac_api_base" base ls) as [ls'|e] eqn:Hset; [|reflexivity].
  exact (getItem_other_key k _ _ ls ls' Hne Hset).
Qed.

(** X5.  Neither persist effect touches a key other than its own: saving
    the job list leaves the saved base URL as it was, saving the base URL
    leaves the saved job list as it was, and no other key of the storage
    changes. *)
Theorem persist_effects_keep_other_keys (k base : string) (js : jsval finite) ls :
  k <> "ac_jobs" -> k <> "ac_api_base" ->
  getItem k (persist_apiBase_effect base (persist_jobs_effect js ls)) = getItem k ls
  /\ getItem "ac_api_base" (persist_jobs_effect js ls) = getItem "ac_api_base" ls
  /\ getItem "ac_jobs" (persist_apiBase_effect base ls) = getItem "ac_jobs" ls.
Proof.
  intros Hj Hb. split; [|split].
  - rewrite (persist_apiBase_other_key k base _ Hb). exact (persist_jobs_other_key k js ls Hj).
  - apply persist_jobs_other_key. discriminate.
  - apply persist_apiBase_other_key. discriminate.
Qed.

Lemma persist_jobs_accepted (js : jsval finite) ls :
  denied ls = None -> capacity ls = None ->
  let ls' := persist_jobs_effect js ls in
  denied ls' = None /\ capacity ls' = None
  /\ getItem "ac_jobs" ls' = Normal (Some (JSON_stringify js)).
Proof.
  intros Hd Hc. unfold persist_jobs_effect.
  rewrite (setItem_accepted _ _ ls Hd Hc). cbn.
  repeat split. unfold getItem. cbn. rewrite lookup_insert_eq. reflexivity.
Qed.

Lemma persist_apiBase_accepted (base : string) ls :
  denied ls = None -> capacity ls = None ->
  let ls' := persist_apiBase_effect base ls in
  denied ls' = None /\ capacity ls' = None
  /\ getItem "ac_api_base" ls' = Normal (Some base).
Proof.
  intros Hd Hc. unfold persist_apiBase_effect.
  rewrite (setItem_accepted _ _ ls Hd Hc). cbn.
  repeat split. unfold getItem. cbn. rewrite lookup_insert_eq. reflexivity.
Qed.

(** X6.  On a storage that accepts writes, the first mount pins the base
    URL: a later mount from the storage it left starts with the base URL
    of the first, whatever the host page or the bundler inject then. *)
Theorem first_mount_pins_base h1 ls :
  denied ls = None -> capacity ls = None ->
  exists s1 ls1,
    mount h1 ls = Normal (s1, ls1)
    /\ forall h2, exists s2 ls2,
         mount h2 ls1 = Normal (s2, ls2) /\ apiBase s2 = apiBase s1.
Proof.
  intros Hd Hc.
  destruct (mount_returns h1 ls) as (d1 & s1 & ls1 & _ & Hm & _).
  pose proof (mount_base_not_empty h1 ls s1 ls1 Hm) as Hne.
  exists s1, ls1. split; [exact Hm|]. intros h2.
  destruct (mount_returns h2 ls1) as (d & s2 & ls2 & _ & Hm2 & Hb2 & _).
  exists s2, ls2. split; [exact Hm2|]. rewrite Hb2.
  apply initial_apiBase_saved; [|exact Hne].
  rewrite (mount_storage _ _ _ _ Hm).
  destruct (persist_jobs_accepted (VArr []) ls Hd Hc) as (Hd' & Hc' & _).
  exact (proj2 (proj2 (persist_apiBase_accepted (apiBase s1) _ Hd' Hc'))).
Qed.

(** X7.  A base URL entered in the box and confirmed with Set becomes
    the base URL at once and, once the persist effect has written it, is
    the base URL and the text of the box after a restart, provided it is
    not empty. *)
Theorem set_base_survives_restart s (x : string) h ls ls' :
  x <> "" ->
  setItem "ac_api_base" x ls = Normal ls' ->
  let s' := click_Set (setApiBaseInput x s) in
  apiBase s' = x
  /\ persist_apiBase_effect (apiBase s') ls = ls'
  /\ exists s2 ls2,
       mount h ls' = Normal (s2, ls2) /\ apiBase s2 = x /\ apiBaseInput s2 = x.
Proof.
  intros Hne Hset. cbn. split; [reflexivity|]. split.
  - unfold persist_apiBase_effect. rewrite Hset. reflexivity.
  - destruct (mount_returns h ls') as (d & s2 & ls2 & _ & Hm & Hb & Hi & _).
    exists s2, ls2. split; [exact Hm|].
    rewrite Hb, Hi.
    rewrite (initial_apiBase_saved d x ls' (getItem_after_setItem _ _ _ _ Hset) Hne).
    split; reflexivity.
Qed.

(** X8.  When every access to the storage throws, mounting still
    succeeds: the base URL is the resolved default, the job list is empty,
    and the storage is left as it was. *)
Theorem mount_without_storage h ls (e : exn) :
  denied ls = Some e ->
  exists d s,
    getDefaultApiBase h = Normal d
    /\ mount h ls = Normal (s, ls)
    /\ apiBase s = d
    /\ apiBaseInput s = d
    /\ jobs s = VArr [].
Proof.
  intros Hd. destruct (getDefaultApiBase_returns h) as [d Hdef].
  exists d, (initial_state d ls). split; [exact Hdef|].
  unfold mount. rewrite Hdef. cbn [bind].
  unfold load_jobs_effect, persist_jobs_effect, persist_apiBase_effect,
    initial_state, initial_apiBase, getItem, setItem.
  repeat (rewrite Hd; cbn). repeat split.
Qed.

(** X9.  The effects of the first render write the empty list over
    whatever was stored under [ac_jobs], before the second render; a
    stored text that is absent, empty or not JSON leaves the job list
    empty, so that such a text is lost. *)
Theorem mount_overwrites_stored_jobs h ls :
  denied ls = None -> capacity ls = None ->
  exists s ls',
    mount h ls = Normal (s, ls')
    /\ getItem "ac_jobs" ls' = Normal (Some "[]")
    /\ (forall text err,
          getItem "ac_jobs" ls = Normal (Some text) ->
          JSON_parse text = Throw err -> jobs s = VArr [])
    /\ (getItem "ac_jobs" ls = Normal None \/ getItem "ac_jobs" ls = Normal (Some "") ->
        jobs s = VArr []).
Proof.
  intros Hd Hc.
  destruct (mount_returns h ls) as (d & s & ls' & _ & Hm & _ & _ & Hj).
  exists s, ls'. split; [exact Hm|]. split; [|split].
  - rewrite (mount_storage _ _ _ _ Hm).
    destruct (persist_jobs_accepted (VArr []) ls Hd Hc) as (_ & _ & Hget).
    rewrite persist_apiBase_other_key by discriminate. exact Hget.
  - intros text err Hget Hparse. rewrite Hj. unfold load_jobs_effect.
    rewrite Hget. cbn. destruct (String.eqb text ""); [reflexivity|].
    rewrite Hparse. reflexivity.
  - intros [Hget|Hget]; rewrite Hj; unfold load_jobs_effect; rewrite Hget; reflexivity.
Qed.

End Configuration.


Section Handlers.

Context {finite : Type} {engine : Engine finite}.

Implicit Types (s : state finite) (v data : jsval finite) (l : list (jsval finite)).

(** ** One submission *)

(** X10.  A submission that returns ends with the loading flag off, has
    not touched the base URL, the text of its box or the token, and leaves
    at most one of response and error set. *)
Theorem submitFeature_sets_response_or_error s (outcome : completion http_response)
    (now created : finite) (s' : state finite) :
  submitFeature s outcome now created = Normal s' ->
  loading s' = false
  /\ apiBase s' = apiBase s
  /\ apiBaseInput s' = apiBaseInput s
  /\ apiToken s' = apiToken s
  /\ (response s' = VNull \/ error s' = VNull).
Proof.
  unfold submitFeature, submit_settle, prepend_job, bind.
  repeat case_match; intros [= <-]; cbn; auto 10.
Qed.

(** X11.  An answer whose body cannot be read as the content type
    demands is reported as an error whatever its status, a 2xx status
    included: no job is recorded and the form keeps what was typed. *)
Theorem unreadable_answer_is_an_error s (res : http_response) (err : exn)
    (now created : finite) :
  read_data res = Throw err ->
  exists s',
    submitFeature s (Normal res) now created = Normal s'
    /\ error s' = VStr (String_of_exn err)
    /\ response s' = VNull
    /\ jobs s' = jobs s
    /\ title s' = title s
    /\ description s' = description s.
Proof.
  intros Hread. unfold submitFeature, submit_settle. cbn [bind]. rewrite Hread.
  eexists. split; [reflexivity|]. repeat split.
Qed.

(** ** The content type *)

Lemma prefix_append (a b : string) : String.prefix a (a +:+ b) = true.
Proof.
  induction a as [|c a IH]; [destruct b; reflexivity|].
  rewrite append_String. cbn. destruct (ascii_dec c c); [exact IH | contradiction].
Qed.

Lemma includes_unfold (needle hay : string) :
  includes needle hay
  = String.prefix needle hay
    || match hay with
       | EmptyString => false
       | String _ rest => includes needle rest
       end.
Proof. destruct hay; reflexivity. Qed.

Lemma includes_middle (needle pre post : string) :
  includes needle (pre +:+ needle +:+ post) = true.
Proof.
  induction pre as [|c pre IH].
  - change ("" +:+ ?a) with a. rewrite includes_unfold, prefix_append. reflexivity.
  - rewrite append_String, includes_unfold, IH. apply orb_true_r.
Qed.

(** X12.  A content type that has [application/json] anywhere in it,
    with parameters after it or anything before it, makes the body be
    parsed as JSON and nothing else. *)
Theorem json_content_type_with_parameters (res : http_response) (pre post text : string) :
  content_type res = Some (pre +:+ "application/json" +:+ post) ->
  body res = Normal text ->
  read_data res = JSON_parse text.
Proof.
  intros Hct Hbody. unfold read_data.
  rewrite content_type_or_empty, Hct, Hbody.
  change (default "" (Some ?x)) with x.
  rewrite includes_middle. reflexivity.
Qed.

(** ** Requests in flight *)

Lemma submit_settle_loading (submitted s s' : state finite)
    (outcome : completion http_response) (now created : finite) :
  submit_settle submitted outcome now created s = Normal s' -> loading s' = false.
Proof.
  unfold submit_settle, prepend_job, bind.
  repeat case_match; intros [= <-]; reflexivity.
Qed.

(** X13.  Through the form at most one request is in flight, and the
    loading flag is set exactly while it is: the flag goes up with the
    submission, which the disabled button then keeps from being repeated,
    and comes down with the answer, whatever else is typed or clicked in
    between. *)
Theorem one_request_in_flight (trace : list (event finite)) s (pending : nat) :
  pending = (if loading s then 1 else 0) ->
  possible pending s trace = true ->
  exists s',
    run s trace = Normal s'
    /\ fold_left in_flight trace pending = (if loading s' then 1 else 0)
    /\ fold_left in_flight trace pending <= 1.
Proof.
  revert s pending. induction trace as [|e trace IH]; intros s pending Hp Hposs.
  - exists s. split; [reflexivity|]. split; [exact Hp|].
    cbn. rewrite Hp. destruct (loading s); lia.
  - cbn [possible] in Hposs. apply andb_true_iff in Hposs as [Hen Hposs].
    destruct (handle s e) as [s1|err] eqn:Hs1; [|discriminate Hposs].
    destruct (IH s1 (in_flight pending e)) as (s' & Hrun & Hrest); [|exact Hposs|].
    + destruct e as [x | x | x | x | | | | submitted outcome now created];
        try (injection Hs1 as <-; exact Hp).
      * injection Hs1 as <-. cbn in Hen |- *.
        apply andb_true_iff in Hen as [Hen _]. apply andb_true_iff in Hen as [Hen _].
        apply negb_true_iff in Hen. rewrite Hen in Hp. rewrite Hp. reflexivity.
      * cbn [handle] in Hs1. rewrite (submit_settle_loading _ _ _ _ _ _ Hs1).
        cbn in Hen |- *. destruct (loading s); subst pending; [reflexivity | discriminate Hen].
    + exists s'. split; [|exact Hrest]. cbn [run bind]. rewrite Hs1. exact Hrun.
Qed.

(** X14.  Through any session that starts with at most 30 jobs, the job
    list never holds more than 30. *)
Theorem job_list_never_exceeds_30 s0 l0 (trace : list (event finite)) :
  jobs s0 = VArr l0 ->
  length l0 <= 30 ->
  exists s l,
    run s0 trace = Normal s /\ jobs s = VArr l /\ length l <= 30.
Proof.
  revert s0 l0. induction trace as [|e trace IH]; intros s0 l0 Hjobs Hlen.
  - exists s0, l0. split; [reflexivity|]. split; assumption.
  - destruct (handle_jobs s0 e l0 Hjobs) as (s1 & Hs1 & Hj1).
    destruct (IH s1 _ Hj1) as (s & l & Hrun & Hrest).
    + destruct (created_by e); [|exact Hlen]. rewrite length_take. lia.
    + exists s, l. split; [|exact Hrest]. cbn [run bind]. rewrite Hs1. exact Hrun.
Qed.

(** X15.  The title of a job is the title at the moment of submitting:
    what is typed while the request is in flight does not reach the job
    and is wiped when the answer arrives.  Clear does not cancel a request
    in flight: its answer still sets the response and records the job. *)
Theorem title_is_captured_at_submit s l (a b : string)
    (outcome : completion http_response) (now created : finite) data :
  jobs s = VArr l ->
  succeeds outcome data ->
  let submitted := setTitle a s in
  (exists s',
      run s [Type_title a; Submit; Type_title b; Settle submitted outcome now created]
      = Normal s'
      /\ jobs s' = VArr (take 30 (new_job a now created data :: l))
      /\ title s' = ""
      /\ response s' = data)
  /\ (exists s',
        run s [Type_title a; Submit; Click_Clear; Settle submitted outcome now created]
        = Normal s'
        /\ jobs s' = VArr (take 30 (new_job a now created data :: l))
        /\ response s' = data
        /\ loading s' = false).
Proof.
  intros Hjobs Hok submitted. split.
  - cbn [run handle bind].
    rewrite (submit_settle_success submitted _ l outcome now created data);
      [|exact Hjobs|exact Hok].
    eexists. split; [reflexivity|]. repeat split.
  - cbn [run handle bind].
    rewrite (submit_settle_success submitted _ l outcome now created data);
      [|exact Hjobs|exact Hok].
    eexists. split; [reflexivity|]. repeat split.
Qed.

(** ** The job list buttons *)

(** X16.  After a successful submission the entry at the head of the job
    list carries the submitted title and, as its result, the very data
    shown as the response; View on it brings that response back after a
    Clear. *)
Theorem newest_job_holds_response s l (sub : submission finite) data :
  jobs s = VArr l ->
  succeeds (answer sub) data ->
  exists s' job rest,
    submit_one s sub = Normal s'
    /\ jobs s' = VArr (job :: rest)
    /\ prop "title" job = Some (VStr (typed_title sub))
    /\ prop "result" job = Some (response s')
    /\ response s' = data
    /\ click_View job s' = Some s'
    /\ click_View job (click_Clear s') = Some (setResponse data (click_Clear s')).
Proof.
  intros Hjobs Hok. unfold submit_one, submitFeature.
  erewrite submit_settle_success; [|cbn; exact Hjobs|exact Hok].
  eexists _, _, _. split; [reflexivity|]. cbn. repeat split.
Qed.

Lemma is_job_result (j : jsval finite) :
  is_job j = true -> exists r, prop "result" j = Some r.
Proof.
  unfold is_job. intros H. repeat case_match; try discriminate H. subst.
  repeat (apply andb_true_iff in H as [H ?]).
  repeat match goal with
         | E : String.eqb _ _ = true |- _ => apply String.eqb_eq in E
         end.
  subst. eexists. reflexivity.
Qed.

Lemma is_job_as_json (j : jsval finite) : is_job j = true -> is_job (as_json j) = true.
Proof.
  intros H. unfold is_job in H. repeat case_match; try discriminate H. subst. exact H.
Qed.

Lemma handle_keeps_jobs_well_formed s (e : event finite) l :
  jobs s = VArr l ->
  forallb is_job l = true ->
  exists s' l',
    handle s e = Normal s' /\ jobs s' = VArr l' /\ forallb is_job l' = true.
Proof.
  intros Hjobs Hall. destruct (handle_jobs s e l Hjobs) as (s' & Hs' & Hj').
  eexists s', _. split; [exact Hs'|]. split; [exact Hj'|].
  destruct (created_by e) as [job|] eqn:Hjob; [|exact Hall].
  apply forallb_take. cbn [forallb]. rewrite Hall, andb_true_r.
  destruct e as [x | x | x | x | | | | submitted outcome now created]; try discriminate Hjob.
  cbn in Hjob. destruct outcome as [res|]; [|discriminate].
  destruct (ok res); [|discriminate].
  destruct (read_data res); [|discriminate].
  injection Hjob as <-. reflexivity.
Qed.

(** X17.  In a session that starts from a list of entries built the way
    [submitFeature] builds them, every entry of the list at any later
    moment is built that way, so that View and Download find a result on
    each of them; the list as a restart reads it back is built that way
    too. *)
Theorem every_job_can_be_viewed s0 l0 (trace : list (event finite)) :
  jobs s0 = VArr l0 ->
  forallb is_job l0 = true ->
  exists s l,
    run s0 trace = Normal s
    /\ jobs s = VArr l
    /\ forallb is_job l = true
    /\ (forall j, In j l ->
        exists r,
          click_View j s = Some (setResponse r s)
          /\ forall now, click_Download j now = Some (downloadResult r now))
    /\ as_json (jobs s) = VArr (map as_json l)
    /\ forallb is_job (map as_json l) = true.
Proof.
  revert s0 l0. induction trace as [|e trace IH]; intros s0 l0 Hjobs Hall.
  - exists s0, l0. split; [reflexivity|]. split; [exact Hjobs|]. split; [exact Hall|].
    split; [|split].
    + intros j Hin. rewrite forallb_forall in Hall.
      destruct (is_job_result j (Hall j Hin)) as [r Hr].
      exists r. unfold click_View, click_Download. rewrite Hr. split; reflexivity.
    + rewrite Hjobs. reflexivity.
    + rewrite forallb_forall in Hall |- *. intros j Hin.
      apply in_map_iff in Hin as (j' & <- & Hin). apply is_job_as_json. exact (Hall j' Hin).
  - destruct (handle_keeps_jobs_well_formed s0 e l0 Hjobs Hall) as (s1 & l1 & Hs1 & Hj1 & Hall1).
    destruct (IH s1 l1 Hj1 Hall1) as (s & l & Hrun & Hrest).
    exists s, l. split; [|exact Hrest].
    cbn [run bind]. rewrite Hs1. exact Hrun.
Qed.

(** ** The request *)

Lemma string_reads_back (str : string) : reads_back (VStr str : jsval finite).
Proof.
  intros fuel rest Hfuel Hrest.
  destruct fuel as [|fuel]; [cbn in Hfuel; lia|].
  cbn [JSON_stringify]. rewrite QuoteJSONString_append.
  rewrite parse_value_S. unfold read_value.
  change (skip_ws (String quote_char ?r)) with (String quote_char r).
  cbv beta iota.
  change (Ascii.eqb quote_char "{") with false.
  change (Ascii.eqb quote_char "[") with false.
  change (Ascii.eqb quote_char quote_char) with true. cbn iota.
  rewrite parse_chars_quoted. reflexivity.
Qed.

Lemma object_reads_back (props : list (string * jsval finite)) :
  keys_in_order [] (map fst props) = true ->
  Forall (fun kv => reads_back kv.2) props ->
  reads_back (VObj props).
Proof.
  intros Hkeys Hprops fuel rest Hfuel Hrest.
  rewrite stringify_object in *.
  rewrite !length_append in Hfuel. cbn [String.length] in Hfuel.
  destruct fuel as [|fuel]; [lia|].
  rewrite !append_assoc. change ("{" +:+ ?a) with (String "{" a).
  change ("}" +:+ rest) with (String "}" rest).
  rewrite parse_value_S. unfold read_value.
  change (skip_ws (String "{" ?r)) with (String "{" r).
  cbv beta iota.
  change (Ascii.eqb "{" "{") with true. cbn iota.
  destruct props as [|[k x] props]; [reflexivity|].
  destruct (joined_opens (map member_text props) (member_text (k, x)))
    as (c & r & Hjoin & Hopen).
  { eexists quote_char, _. split; [reflexivity|]. repeat split. }
  cbn [map] in *. rewrite Hjoin at 1. rewrite append_String.
  rewrite (skip_ws_value _ _ Hopen). cbn [strip_prefix].
  destruct Hopen as (_ & _ & ->).
  rewrite (parse_members_joined _ Hprops); [|discriminate|cbn [map]; lia].
  unfold build_object.
  rewrite (build_object_in_order ((k, x) :: props) [] Hkeys). reflexivity.
Qed.

(** X18.  The request is a POST that always declares JSON, carries the
    bearer token exactly when a token was entered, and has a body that
    reads back as the object of the typed title and description, whatever
    characters they hold. *)
Theorem request_carries_what_was_typed s :
  method (submit_request s) = "POST"
  /\ (apiToken s = "" ->
      headers (submit_request s) = [("Content-Type", "application/json")])
  /\ (apiToken s <> "" ->
      headers (submit_request s)
      = [("Content-Type", "application/json");
         ("Authorization", "Bearer " +:+ apiToken s)])
  /\ JSON_parse (request_body (submit_request s))
     = Normal (VObj [("title", VStr (title s)); ("description", VStr (description s))]).
Proof.
  split; [reflexivity|]. split; [|split].
  - intros Hno. cbn. rewrite Hno. reflexivity.
  - intros Hyes. cbn. destruct (String.eqb_spec (apiToken s) ""); [contradiction | reflexivity].
  - cbn [submit_request request_body]. unfold JSON_parse.
    rewrite <- (append_nil_r (JSON_stringify _)) at 2.
    rewrite object_reads_back; [reflexivity|reflexivity| |lia|exact I].
    repeat constructor; apply string_reads_back.
Qed.

(** ** The Latest Result panel *)

(** X19.  An answer whose data is falsy gets no banner and no result
    panel.  After a non-2xx status the error is set to the data, and the
    error line shows nothing when the data is [null], [false] or the empty
    string and the bare text [0] when it is a zero; after a 2xx status the
    result panel keeps its placeholder although the job is recorded. *)
Theorem falsy_payload_gets_no_banner s l (res : http_response) data (now created : finite) :
  jobs s = VArr l ->
  read_data res = Normal data ->
  ToBoolean data = false ->
  exists s',
    submitFeature s (Normal res) now created = Normal s'
    /\ result_panel s' = None
    /\ (ok res = true ->
        jobs s' = VArr (take 30 (new_job (title s) now created data :: l))
        /\ render_error s' = Nothing)
    /\ (ok res = false ->
        error s' = data
        /\ render_error s' = match data with
                             | VNum _ => Text "0"
                             | _ => Nothing
                             end).
Proof.
  intros Hjobs Hread Hfalsy. unfold submitFeature, submit_settle. cbn [bind].
  rewrite Hread. cbn [bind]. destruct (ok res) eqn:Hok.
  - unfold prepend_job. cbn [submit_begin setError setResponse setLoading jobs].
    rewrite Hjobs. cbn [spread bind].
    eexists. split; [reflexivity|].
    unfold render_error, result_panel. cbn. rewrite Hfalsy.
    split; [reflexivity|]. split; [intros _; split; reflexivity | discriminate].
  - eexists. split; [reflexivity|].
    unfold render_error, result_panel. cbn. rewrite Hfalsy.
    split; [reflexivity|]. split; [discriminate|]. intros _. split; [reflexivity|].
    destruct data as [| b | [f| | |] | str | xs | props]; try reflexivity.
    + cbn in Hfalsy |- *. apply negb_false_iff, String.eqb_eq in Hfalsy.
      rewrite Hfalsy. reflexivity.
    + discriminate Hfalsy.
    + discriminate Hfalsy.
Qed.

(** X20.  The error banner shows a rejected request as the bare text of
    the exception, and a non-2xx answer whose body is plain text, not
    declared as JSON, as the JSON text of an object that wraps the body
    under [text]. *)
Theorem error_banner_text s (now created : finite) :
  (forall e : exn,
      String_of_exn e <> "" ->
      exists s',
        submitFeature s (Throw e) now created = Normal s'
        /\ render_error s' = Banner (String_of_exn e))
  /\ (forall (res : http_response) (text : string) (err : exn),
        ok res = false ->
        body res = Normal text ->
        declares_json res = false ->
        JSON_parse text = Throw err ->
        exists s',
          submitFeature s (Normal res) now created = Normal s'
          /\ error s' = VObj [("text", VStr text)]
          /\ render_error s'
             = Banner ("{" +:+ QuoteJSONString "text" +:+ ":" +:+ QuoteJSONString text +:+ "}")
          /\ result_panel s' = None).
Proof.
  split.
  - intros e Hne. eexists. split; [reflexivity|].
    unfold render_error. cbn.
    destruct (String.eqb_spec (String_of_exn e) ""); [contradiction | reflexivity].
  - intros res text err Hok Hbody Hct Hparse.
    assert (Hread : read_data res = Normal (VObj [("text", VStr text)])).
    { unfold read_data. unfold declares_json in Hct.
      rewrite content_type_or_empty, Hct, Hbody. cbn. rewrite Hparse. reflexivity. }
    unfold submitFeature, submit_settle. cbn [bind]. rewrite Hread. cbn [bind]. rewrite Hok.
    eexists. split; [reflexivity|]. repeat split.
Qed.

End Handlers.

Section Output.

Context {finite : Type} {engine : Engine finite}.

Implicit Types (s : state finite) (v : jsval finite).

(** ** Quick Health *)

Lemma snoc_not_empty (q : string) : "" <> q +:+ "/".
Proof. destruct q; discriminate. Qed.

Lemma replace_trailing_slash_strips (base : string) :
  strips_to base (replace_trailing_slash base).
Proof.
  induction base as [|c rest IH].
  - right. split; [reflexivity | apply snoc_not_empty].
  - destruct rest as [|d r].
    + cbn [replace_trailing_slash]. destruct (Ascii.eqb_spec c "/") as [->|Hc].
      * left. reflexivity.
      * right. split; [reflexivity|]. intros [|e q] H.
        -- injection H as H. contradiction.
        -- rewrite append_String in H. injection H as _ H. exact (snoc_not_empty q H).
    + change (replace_trailing_slash (String c (String d r)))
        with (String c (replace_trailing_slash (String d r))).
      destruct IH as [Hs | [Heq Hno]].
      * left. rewrite append_String, <- Hs. reflexivity.
      * right. rewrite Heq. split; [reflexivity|]. intros [|e q] H.
        -- discriminate H.
        -- rewrite append_String in H. injection H as _ H. exact (Hno q H).
Qed.

(** X21.  The health check and the submission go to the same base: the
    base URL with its trailing slash stripped, followed by [/health] for
    the one and by [/feature_request] for the other. *)
Theorem ping_and_submit_share_the_base s :
  exists p,
    strips_to (apiBase s) p
    /\ health_url (apiBase s) = p +:+ "/health"
    /\ url (submit_request s) = p +:+ "/feature_request".
Proof.
  exists (replace_trailing_slash (apiBase s)).
  split; [apply replace_trailing_slash_strips|]. split; reflexivity.
Qed.

(** ** Indented JSON text *)

Lemma skip_ws_indentation (depth : nat) (r : string) :
  skip_ws (indentation depth +:+ r) = skip_ws r.
Proof.
  induction depth as [|d IH]; [reflexivity|].
  cbn [indentation]. rewrite !append_String.
  change (skip_ws (String " " (String " " ?x))) with (skip_ws x). exact IH.
Qed.

Lemma skip_ws_line_break (depth : nat) (r : string) :
  skip_ws (line_break depth +:+ r) = skip_ws r.
Proof.
  unfold line_break. rewrite append_String.
  change (skip_ws (String newline_char ?x)) with (skip_ws x).
  apply skip_ws_indentation.
Qed.

Lemma line_break_ends_token (depth : nat) (r : string) : ends_token (line_break depth +:+ r).
Proof. reflexivity. Qed.

(** The readers skip the white space in front of a value. *)
Lemma parse_value_ws (fuel : nat) (a b : string) :
  skip_ws a = skip_ws b -> parse_value fuel a = parse_value (finite := finite) fuel b.
Proof.
  destruct fuel as [|fuel]; [reflexivity|].
  rewrite !parse_value_S. unfold read_value. intros ->. reflexivity.
Qed.

Lemma parse_elements_ws (fuel : nat) (a b : string) :
  skip_ws a = skip_ws b -> parse_elements fuel a = parse_elements (finite := finite) fuel b.
Proof.
  destruct fuel as [|fuel]; [reflexivity|].
  rewrite !parse_elements_S. unfold read_elements. intros H.
  rewrite (parse_value_ws fuel a b H). reflexivity.
Qed.

Lemma parse_members_ws (fuel : nat) (a b : string) :
  skip_ws a = skip_ws b -> parse_members fuel a = parse_members (finite := finite) fuel b.
Proof.
  destruct fuel as [|fuel]; [reflexivity|].
  rewrite !parse_members_S. unfold read_members. intros ->. reflexivity.
Qed.

Lemma join_cons (sep x : string) (xs : list string) :
  xs <> [] -> join sep (x :: xs) = x +:+ sep +:+ join sep xs.
Proof. destruct xs; [contradiction | reflexivity]. Qed.

Lemma join_opens (sep t : string) (texts : list string) :
  (exists c r, t = String c r /\ opens_value c) ->
  exists c r, join sep (t :: texts) = String c r /\ opens_value c.
Proof.
  intros (c & r & -> & Hc). destruct texts as [|t' texts].
  - exists c, r. split; [reflexivity | exact Hc].
  - eexists c, _. split; [|exact Hc]. cbn [join]. rewrite append_String. reflexivity.
Qed.

Lemma stringify_at_array (depth : nat) (xs : list (jsval finite)) :
  xs <> [] ->
  stringify_at depth (VArr xs)
  = String "[" (line_break (S depth)
                +:+ join (String "," (line_break (S depth))) (map (stringify_at (S depth)) xs)
                +:+ line_break depth +:+ "]").
Proof. destruct xs; [contradiction | reflexivity]. Qed.

Lemma stringify_at_object (depth : nat) (props : list (string * jsval finite)) :
  props <> [] ->
  stringify_at depth (VObj props)
  = String "{" (line_break (S depth)
                +:+ join (String "," (line_break (S depth))) (map (member_line depth) props)
                +:+ line_break depth +:+ "}").
Proof.
  intros Hne. rewrite <- (map_ext (fun '(k, x) =>
    QuoteJSONString k +:+ ": " +:+ stringify_at (S depth) x) (member_line depth));
    [|intros [k x]; reflexivity].
  destruct props; [contradiction | reflexivity].
Qed.

Lemma elements_indented (xs : list (jsval finite)) :
  Forall indented_reads_back xs ->
  xs <> [] ->
  forall (depth fuel : nat) (rest : string),
    String.length (join (String "," (line_break (S depth)))
                     (map (stringify_at (S depth)) xs)) + 1 <= fuel ->
    parse_elements fuel
      (join (String "," (line_break (S depth))) (map (stringify_at (S depth)) xs)
       +:+ line_break depth +:+ String "]" rest)
    = Some (xs, rest).
Proof.
  induction 1 as [|x xs Hx Hxs IH]; intros Hne depth fuel rest Hfuel; [contradiction|].
  destruct fuel as [|fuel]; [lia|].
  destruct xs as [|y ys].
  - cbn [map join] in *. rewrite parse_elements_S. unfold read_elements.
    rewrite (Hx (S depth) fuel); [|lia|apply line_break_ends_token].
    rewrite skip_ws_line_break.
    change (skip_ws (String "]" ?r)) with (String "]" r). reflexivity.
  - cbn [map] in *. rewrite join_cons in * by discriminate.
    rewrite !length_append in Hfuel. cbn [String.length] in Hfuel.
    rewrite !append_assoc. rewrite parse_elements_S. unfold read_elements.
    rewrite append_String.
    rewrite (Hx (S depth) fuel); [|lia|reflexivity].
    change (skip_ws (String "," ?r)) with (String "," r).
    cbn [strip_prefix]. change (Ascii.eqb "," ",") with true. cbn iota.
    rewrite (parse_elements_ws fuel _ _ (skip_ws_line_break _ _)).
    rewrite IH; [reflexivity|discriminate|lia].
Qed.

Lemma members_indented (props : list (string * jsval finite)) :
  Forall (fun kv => indented_reads_back kv.2) props ->
  props <> [] ->
  forall (depth fuel : nat) (rest : string),
    String.length (join (String "," (line_break (S depth)))
                     (map (member_line depth) props)) + 1 <= fuel ->
    parse_members fuel
      (join (String "," (line_break (S depth))) (map (member_line depth) props)
       +:+ line_break depth +:+ String "}" rest)
    = Some (props, rest).
Proof.
  induction 1 as [|[k x] props Hx Hprops IH]; intros Hne depth fuel rest Hfuel; [contradiction|].
  destruct fuel as [|fuel]; [lia|].
  cbn [snd] in Hx.
  assert (Hkey : forall tail : string,
    read_members (parse_value fuel) (parse_members fuel)
      (member_line depth (k, x) +:+ tail)
    = match parse_value fuel (stringify_at (S depth) x +:+ tail) with
      | None => None
      | Some (v, r3) =>
          match strip_prefix "," (skip_ws r3) with
          | Some r4 => cons_fst (k, v) (parse_members fuel r4)
          | None =>
              match strip_prefix "}" (skip_ws r3) with
              | Some r4 => Some ([(k, v)], r4)
              | None => None
              end
          end
      end).
  { intros tail. unfold member_line. cbn [fst snd].
    rewrite !append_assoc, QuoteJSONString_append. unfold read_members.
    change (skip_ws (String quote_char ?r)) with (String quote_char r).
    cbn [strip_prefix]. change (Ascii.eqb quote_char quote_char) with true. cbn iota.
    rewrite parse_chars_quoted.
    change (": " +:+ ?a) with (String ":" (String " " a)).
    change (skip_ws (String ":" ?r)) with (String ":" r).
    cbn [strip_prefix]. change (Ascii.eqb ":" ":") with true. cbn iota.
    rewrite (parse_value_ws fuel (String " " (stringify_at (S depth) x +:+ tail))
               (stringify_at (S depth) x +:+ tail)) by reflexivity.
    reflexivity. }
  destruct props as [|kv props].
  - cbn [map join] in *. rewrite parse_members_S, Hkey.
    unfold member_line in Hfuel. cbn [fst snd] in Hfuel. rewrite !length_append in Hfuel.
    rewrite (Hx (S depth) fuel); [|lia|apply line_break_ends_token].
    rewrite skip_ws_line_break.
    change (skip_ws (String "}" ?r)) with (String "}" r). reflexivity.
  - cbn [map] in *. rewrite join_cons in * by discriminate.
    unfold member_line at 1 in Hfuel. cbn [fst snd] in Hfuel.
    rewrite !length_append in Hfuel. cbn [String.length] in Hfuel.
    rewrite !append_assoc. rewrite parse_members_S, Hkey.
    rewrite append_String.
    rewrite (Hx (S depth) fuel); [|lia|reflexivity].
    change (skip_ws (String "," ?r)) with (String "," r).
    cbn [strip_prefix]. change (Ascii.eqb "," ",") with true. cbn iota.
    rewrite (parse_members_ws fuel _ _ (skip_ws_line_break _ _)).
    rewrite IH; [reflexivity|discriminate|lia].
Qed.

Section WithLaws.

Hypothesis laws : lawful_engine engine.

Lemma stringify_at_opens (depth : nat) v :
  plain_json v = true ->
  exists c r, stringify_at depth v = String c r /\ opens_value c.
Proof.
  intros Hplain.
  destruct v as [| b | n | str | [|x xs] | [|kv props]];
    try exact (stringify_opens laws _ Hplain).
  - eexists "["%char, _. split; [reflexivity|]. repeat split.
  - eexists "{"%char, _. split; [reflexivity|]. repeat split.
Qed.

Lemma forallb_indented_read_back (xs : list (jsval finite)) :
  Forall (fun v => plain_json v = true -> indented_reads_back v) xs ->
  forallb plain_json xs = true ->
  Forall indented_reads_back xs.
Proof.
  induction 1 as [|x xs Hx _ IH]; intros Hall; constructor;
    cbn in Hall; apply andb_true_iff in Hall as [H1 H2]; auto.
Qed.

Lemma forallb_members_indented_read_back (props : list (string * jsval finite)) :
  Forall (fun kv => plain_json kv.2 = true -> indented_reads_back kv.2) props ->
  forallb (fun '(_, x) => plain_json x) props = true ->
  Forall (fun kv => indented_reads_back kv.2) props.
Proof.
  induction 1 as [|[k x] props Hx _ IH]; intros Hall; constructor;
    cbn in Hall; apply andb_true_iff in Hall as [H1 H2]; auto.
Qed.

Lemma plain_json_indented_reads_back v : plain_json v = true -> indented_reads_back v.
Proof.
  induction v as [| b | n | str | xs IH | props IH] using jsval_induction;
    intros Hplain depth fuel rest Hfuel Hrest;
    try exact (plain_json_reads_back laws _ Hplain fuel rest Hfuel Hrest).
  - destruct xs as [|x xs].
    { destruct fuel as [|fuel]; [cbn in Hfuel; lia | reflexivity]. }
    cbn [plain_json] in Hplain.
    pose proof (forallb_indented_read_back _ IH Hplain) as Hxs.
    rewrite stringify_at_array in * by discriminate.
    cbn [String.length] in Hfuel. rewrite !length_append in Hfuel.
    destruct fuel as [|fuel]; [lia|].
    rewrite append_String, !append_assoc.
    change ("]" +:+ rest) with (String "]" rest).
    rewrite parse_value_S. unfold read_value.
    change (skip_ws (String "[" ?r)) with (String "[" r).
    cbv beta iota.
    change (Ascii.eqb "[" "{") with false.
    change (Ascii.eqb "[" "[") with true. cbn iota.
    rewrite skip_ws_line_break.
    rewrite (parse_elements_ws fuel _ _ (skip_ws_line_break _ _)).
    destruct (join_opens (String "," (line_break (S depth)))
                (stringify_at (S depth) x) (map (stringify_at (S depth)) xs))
      as (c & r & Hjoin & Hopen).
    { apply stringify_at_opens. cbn in Hplain. apply andb_true_iff in Hplain as [H _]. exact H. }
    cbn [map] in *. rewrite Hjoin at 1. rewrite append_String.
    rewrite (skip_ws_value _ _ Hopen). cbn [strip_prefix].
    destruct Hopen as (_ & -> & _).
    rewrite (elements_indented _ Hxs);
      [reflexivity|discriminate|cbn [map String.length] in *; lia].
  - destruct props as [|[k x] props].
    { destruct fuel as [|fuel]; [cbn in Hfuel; lia | reflexivity]. }
    cbn [plain_json] in Hplain. apply andb_true_iff in Hplain as [Hkeys Hplain].
    pose proof (forallb_members_indented_read_back _ IH Hplain) as Hprops.
    rewrite stringify_at_object in * by discriminate.
    cbn [String.length] in Hfuel. rewrite !length_append in Hfuel.
    destruct fuel as [|fuel]; [lia|].
    rewrite append_String, !append_assoc.
    change ("}" +:+ rest) with (String "}" rest).
    rewrite parse_value_S. unfold read_value.
    change (skip_ws (String "{" ?r)) with (String "{" r).
    cbv beta iota.
    change (Ascii.eqb "{" "{") with true. cbn iota.
    rewrite skip_ws_line_break.
    rewrite (parse_members_ws fuel _ _ (skip_ws_line_break _ _)).
    destruct (join_opens (String "," (line_break (S depth)))
                (member_line depth (k, x)) (map (member_line depth) props))
      as (c & r & Hjoin & Hopen).
    { eexists quote_char, _. split; [reflexivity|]. repeat split. }
    cbn [map] in *. rewrite Hjoin at 1. rewrite append_String.
    rewrite (skip_ws_value _ _ Hopen). cbn [strip_prefix].
    destruct Hopen as (_ & _ & ->).
    rewrite (members_indented _ Hprops);
      [|discriminate|cbn [map String.length] in *; lia].
    unfold build_object.
    rewrite (build_object_in_order ((k, x) :: props) [] Hkeys). reflexivity.
Qed.

Lemma stringify_at_as_json v (depth : nat) :
  stringify_at depth (as_json v) = stringify_at depth v.
Proof.
  revert depth.
  induction v as [| b | [f| | |] | str | xs IH | props IH] using jsval_induction;
    intros depth; try reflexivity.
  - cbn. apply (zero_text laws).
  - destruct xs as [|x xs]; [reflexivity|].
    cbn [as_json]. rewrite !stringify_at_array by discriminate.
    do 2 f_equal. f_equal. f_equal. rewrite map_map. apply map_ext_Forall.
    eapply Forall_impl; [exact IH|]. intros v Hv. apply Hv.
  - destruct props as [|kv props]; [reflexivity|].
    cbn [as_json]. rewrite !stringify_at_object by (destruct kv; discriminate).
    do 2 f_equal. f_equal. f_equal. rewrite map_map. apply map_ext_Forall.
    eapply Forall_impl; [exact IH|]. intros [k x] Hx. cbn [snd] in Hx.
    unfold member_line. cbn [fst snd]. rewrite Hx. reflexivity.
Qed.

(** [JSON.parse(JSON.stringify(v, null, 2))], for any value of a running
    program. *)
Lemma JSON_parse_indented v :
  in_property_order v = true ->
  JSON_parse (JSON_stringify_indented v) = Normal (as_json v).
Proof.
  intros Hord. unfold JSON_stringify_indented. rewrite <- stringify_at_as_json.
  unfold JSON_parse.
  rewrite <- (append_nil_r (stringify_at 0 (as_json v))) at 2.
  rewrite (plain_json_indented_reads_back _ (as_json_plain v Hord)); [reflexivity | lia | exact I].
Qed.

(** X22.  The file that Download saves is JSON: it reads back as the
    downloaded value (as [JSON.stringify] writes it, an infinity as
    [null]), which is what the text copied by Copy reads back as; and its
    text is the text that the result panel shows. *)
Theorem downloaded_file_reads_back v (now : finite) :
  in_property_order v = true ->
  JSON_parse (content (downloadResult v now)) = Normal (as_json v)
  /\ (forall s, response s = v ->
       JSON_parse (copy_text s) = JSON_parse (content (downloadResult v now)))
  /\ (numbers_exact v = true -> JSON_parse (content (downloadResult v now)) = Normal v)
  /\ content (downloadResult v now) = PrettyJSON v
  /\ mime_type (downloadResult v now) = "application/json".
Proof.
  intros Hord. cbn [downloadResult content mime_type].
  rewrite (JSON_parse_indented v Hord).
  split; [reflexivity|]. split; [|split; [|split; reflexivity]].
  - intros s <-. unfold copy_text. exact (JSON_parse_stringify_as_json laws _ Hord).
  - intros Hnum. rewrite (as_json_exact v Hnum). reflexivity.
Qed.

Lemma append_inv_head (p a b : string) : p +:+ a = p +:+ b -> a = b.
Proof.
  induction p as [|c p IH]; [intros H; exact H|].
  rewrite !append_String. intros [= H]. exact (IH H).
Qed.

Lemma append_inv_tail (a b c : string) : a +:+ c = b +:+ c -> a = b.
Proof.
  revert b. induction a as [|x a IH]; intros [|y b] H.
  - reflexivity.
  - apply (f_equal String.length) in H. rewrite !length_append in H. cbn in H. lia.
  - apply (f_equal String.length) in H. rewrite !length_append in H. cbn in H. lia.
  - rewrite !append_String in H. injection H as -> H. rewrite (IH b H). reflexivity.
Qed.

(** X23.  The name of a downloaded file is fixed by the clock alone: two
    downloads get the same name exactly when they are made at the same
    clock reading, whatever is downloaded. *)
Theorem download_names_follow_the_clock v v' (t t' : finite) :
  file_name (downloadResult v t) = file_name (downloadResult v' t') <-> t = t'.
Proof.
  cbn [downloadResult file_name]. split; [|intros ->; reflexivity].
  intros H. apply append_inv_head, append_inv_tail in H.
  apply (f_equal JSON_number) in H.
  rewrite !(number_read_back laws) in H. injection H as H. exact H.
Qed.

(** X24.  The health check alerts the parsed body written out again,
    without looking at the status or the content type: a body that the
    backend wrote with [JSON.stringify] is alerted as it is, a body that
    is not JSON as the text of the syntax error, and a rejected request
    as the text of its exception. *)
Theorem ping_alert_text (res : http_response) :
  (forall v, in_property_order v = true ->
             body res = Normal (JSON_stringify v) ->
             ping_alert (Normal res) = JSON_stringify v)
  /\ (forall text err, body res = Normal text -> JSON_parse text = Throw err ->
                       ping_alert (Normal res) = String_of_exn err)
  /\ (forall e : exn, ping_alert (finite := finite) (Throw e) = String_of_exn e).
Proof.
  split; [|split].
  - intros v Hord Hbody. unfold ping_alert. cbn [bind]. rewrite Hbody. cbn [bind].
    rewrite (JSON_parse_stringify_as_json laws v Hord).
    apply (stringify_as_json laws).
  - intros text err Hbody Hparse. unfold ping_alert. cbn [bind].
    rewrite Hbody. cbn [bind]. rewrite Hparse. reflexivity.
  - reflexivity.
Qed.

End WithLaws.

End Output.

(** * The integer engine is lawful *)

Lemma digit_or_minus_spec (c : ascii) :
  IntEngine.digit_or_minus c = true ->
  is_num_char c = true /\ Ascii.eqb c "e" || Ascii.eqb c "E" = false.
Proof.
  destruct c as [[] [] [] [] [] [] [] []]; intros H; try discriminate H; split; reflexivity.
Qed.

Lemma string_of_uint_chars (d : Decimal.uint) :
  forallb IntEngine.digit_or_minus (list_ascii_of_string (NilEmpty.string_of_uint d)) = true.
Proof. induction d; cbn; auto. Qed.

Lemma decimal_chars (z : Z) :
  forallb IntEngine.digit_or_minus (list_ascii_of_string (IntEngine.decimal z)) = true.
Proof.
  unfold IntEngine.decimal.
  destruct (Z.to_int z) as [d|d]; destruct d;
    cbn [NilZero.string_of_int NilZero.string_of_uint NilEmpty.string_of_uint
         list_ascii_of_string forallb];
    rewrite ?string_of_uint_chars; reflexivity.
Qed.

Lemma decimal_not_empty (z : Z) : IntEngine.decimal z <> "".
Proof.
  unfold IntEngine.decimal.
  destruct (Z.to_int z) as [d|d]; destruct d; discriminate.
Qed.

Lemma split_exponent_plain (tok : string) :
  forallb IntEngine.digit_or_minus (list_ascii_of_string tok) = true ->
  IntEngine.split_exponent tok = (tok, None).
Proof.
  induction tok as [|c tok IH]; [reflexivity|].
  cbn. intros H. apply andb_true_iff in H as [Hc Htok].
  destruct (digit_or_minus_spec c Hc) as [_ ->]. rewrite (IH Htok). reflexivity.
Qed.

Lemma plain_chars_are_num_chars (tok : string) :
  forallb IntEngine.digit_or_minus (list_ascii_of_string tok) = true ->
  all_num_chars tok = true.
Proof.
  unfold all_num_chars. induction (list_ascii_of_string tok) as [|c l IH]; [reflexivity|].
  cbn. intros H. apply andb_true_iff in H as [Hc Hl].
  destruct (digit_or_minus_spec c Hc) as [-> _]. exact (IH Hl).
Qed.

Lemma int_value_decimal (z : Z) : IntEngine.int_value (IntEngine.decimal z) = Some z.
Proof.
  unfold IntEngine.int_value, IntEngine.decimal.
  rewrite NilZero.isi.
  - rewrite DecimalZ.of_to. fold (IntEngine.decimal z).
    rewrite String.eqb_refl. reflexivity.
  - destruct z; cbn; try discriminate.
    intros [= H]. exact (DecimalPos.Unsigned.to_uint_nonnil _ H).
  - destruct z; cbn; try discriminate.
    intros [= H]. exact (DecimalPos.Unsigned.to_uint_nonnil _ H).
Qed.

Lemma IntEngine_lawful : lawful_engine IntEngine.engine.
Proof.
  split; cbn.
  - intros z. unfold IntEngine.read_number.
    rewrite (split_exponent_plain _ (decimal_chars z)), int_value_decimal. reflexivity.
  - apply decimal_not_empty.
  - intros z. apply plain_chars_are_num_chars, decimal_chars.
  - reflexivity.
Qed.

(** * The theorems at concrete inputs *)

Import Sample.

Lemma palindrome_succeeds (t : Z) : succeeds (answer (palindrome t)) generated.
Proof. eexists. split; [reflexivity|]. split; vm_compute; reflexivity. Qed.

(** C7 at the base URL [http://h:9000/]. *)
Lemma endpoint_strips_trailing_slash_witness :
  url (submit_request (setApiBase "http://h:9000/" fresh))
  = "http://h:9000/feature_request".
Proof.
  apply (endpoint_strips_trailing_slash (setApiBase "http://h:9000/" fresh) "http://h:9000").
  left. reflexivity.
Defined.

(** C5 on a host page whose two lookups throw. *)
Lemma getDefaultApiBase_total_and_default_witness :
  getDefaultApiBase host_guarded = Normal "http://localhost:9000".
Proof.
  apply (proj2 (getDefaultApiBase_total_and_default host_guarded)).
  - intros u [w Hw Hget _]. vm_compute in Hw. injection Hw as <-. discriminate Hget.
  - intros u [g p e Hg Hp _ _ _]. vm_compute in Hg. injection Hg as <-. discriminate Hp.
Defined.

(** C4 on a storage that holds [https://api.example], and on one that
    holds the empty string under a page that injects an override. *)
Lemma persisted_base_takes_precedence_witness :
  ((forall d, apiBase (initial_state (finite := Z) d (storage_with_base "https://api.example"))
              = "https://api.example")
   /\ exists s ls',
        mount (engine := IntEngine.engine) host_bare (storage_with_base "https://api.example")
        = Normal (s, ls')
        /\ apiBase s = "https://api.example")
  /\ exists d s ls',
       getDefaultApiBase host_both = Normal d
       /\ mount (engine := IntEngine.engine) host_both (storage_with_base "") = Normal (s, ls')
       /\ apiBase s = d.
Proof.
  split.
  - apply (proj1 (persisted_base_takes_precedence host_bare
                    (storage_with_base "https://api.example") "https://api.example"
                    eq_refl)).
    discriminate.
  - apply (proj2 (persisted_base_takes_precedence (finite := Z) host_both
                    (storage_with_base "") "" eq_refl)).
    reflexivity.
Defined.

(** C4 does not extend to the empty string, which the Set button persists
    like any other base URL: the next mount falls back to the default. *)
Lemma persisted_empty_base_is_discarded :
  getItem "ac_api_base" (storage_with_base "") = Normal (Some "")
  /\ apiBase (initial_state (finite := Z) "http://localhost:9000" (storage_with_base ""))
     = "http://localhost:9000"
  /\ exists s ls',
       mount (engine := IntEngine.engine) host_bare (storage_with_base "") = Normal (s, ls')
       /\ apiBase s <> "".
Proof.
  split; [reflexivity|]. split; [reflexivity|].
  eexists _, _. split; [reflexivity|]. discriminate.
Qed.

(** C6 on a [text/plain] answer whose body is not JSON. *)
Lemma read_data_by_content_type_witness :
  read_data plain_text_answer = Normal (VObj [("text", VStr "not json")]).
Proof.
  refine (proj2 (proj2 (read_data_by_content_type plain_text_answer "not json" _)) _
            (json_syntax_error "not json") _); reflexivity.
Defined.

(** C2 on a refused connection. *)
Lemma failed_submission_keeps_form_witness :
  exists s',
    submitFeature (setTitle "Add palindrome checker" fresh) (Throw connection_refused) 1%Z 1%Z
    = Normal s'
    /\ jobs s' = VArr []
    /\ title s' = "Add palindrome checker"
    /\ loading s' = false
    /\ error s' = VStr "TypeError: Failed to fetch".
Proof.
  destruct (failed_submission_keeps_form (setTitle "Add palindrome checker" fresh)
              (Throw connection_refused) 1%Z 1%Z I)
    as (s' & Hs' & Hjobs & Htitle & _ & Hloading & Herr & _).
  exists s'. repeat split; try assumption.
  exact (Herr connection_refused eq_refl).
Defined.

(** C2 does not hold of a 500 answer that declares JSON and carries none:
    there is no parsed body, and the error is the stringified
    [SyntaxError]. *)
Lemma error_is_not_always_the_parsed_body :
  fails (Normal broken_500)
  /\ (forall data, read_data broken_500 <> Normal data)
  /\ exists s',
       submitFeature fresh (Normal broken_500) 1%Z 1%Z = Normal s'
       /\ error s' = VStr "SyntaxError: Unexpected token in JSON".
Proof.
  split; [reflexivity|]. split.
  - intros data. vm_compute. discriminate.
  - eexists. split; vm_compute; reflexivity.
Qed.

(** C1 on two submissions from the empty list. *)
Lemma jobs_keep_30_most_recent_first_witness :
  exists s1 l1 s2,
    submit_each fresh [palindrome 1] = Normal s1
    /\ jobs s1 = VArr l1
    /\ submit_one s1 (palindrome 2) = Normal s2
    /\ jobs s2 = VArr (job_of (palindrome 2, generated) :: take 29 l1)
    /\ job_of (palindrome 2, generated) :: take 29 l1
       = [job_of (palindrome 2, generated); job_of (palindrome 1, generated)]
    /\ length (job_of (palindrome 2, generated) :: take 29 l1) <= 30.
Proof.
  apply (jobs_keep_30_most_recent_first fresh [] [(palindrome 1, generated)]
           (palindrome 2) generated).
  - reflexivity.
  - constructor; [apply palindrome_succeeds | constructor].
  - apply palindrome_succeeds.
Defined.

(** C8 on two submissions answered at different clock readings. *)
Lemma job_ids_distinct_when_clock_readings_are_witness :
  exists s1 l1,
    submit_each fresh [palindrome 1; palindrome 2] = Normal s1
    /\ jobs s1 = VArr l1
    /\ NoDup (map (prop "id") l1).
Proof.
  refine (proj2 (job_ids_distinct_when_clock_readings_are fresh []
                   [(palindrome 1, generated); (palindrome 2, generated)]
                   eq_refl _ _ _ _)).
  - repeat constructor; apply palindrome_succeeds.
  - apply NoDup_ListNoDup. cbn.
    constructor; [intros [H|[]]; discriminate H|].
    constructor; [intros []|constructor].
  - constructor.
  - intros sd _ [].
Defined.

(** C8 does not hold when two answers arrive within one millisecond: the
    two jobs carry the same [id]. *)
Lemma same_clock_reading_same_id :
  exists s l,
    submit_each fresh [palindrome 1700000000000; palindrome 1700000000000] = Normal s
    /\ jobs s = VArr l
    /\ ~ NoDup (map (prop "id") l).
Proof.
  eexists _, _. split; [vm_compute; reflexivity|]. split; [reflexivity|].
  cbn. intros H. apply NoDup_cons in H as [H _]. apply H. left.
Qed.

(** C3 on a list of two jobs and an empty storage. *)
Lemma persisted_jobs_are_reloaded_witness :
  let l := [job_of (palindrome 2, generated); job_of (palindrome 1, generated)] in
  exists ls',
    persist_jobs_effect (VArr l) empty_storage = ls'
    /\ load_jobs_effect ls' = Some (VArr l)
    /\ exists s ls'', mount host_bare ls' = Normal (s, ls'') /\ jobs s = VArr l.
Proof.
  intros l. eexists.
  apply (persisted_jobs_are_reloaded IntEngine_lawful host_bare empty_storage _ l).
  - reflexivity.
  - reflexivity.
Defined.

(** C3 does not hold of a job whose result holds an infinity, which is
    what [JSON.parse] makes of the body [1e999]: the persist effect writes
    [null] in its place, and the next mount shows a different list. *)
Lemma infinite_result_is_not_reloaded :
  exists s1 job ls1 s2 ls2 job',
    submit_one fresh huge = Normal s1
    /\ jobs s1 = VArr [job]
    /\ prop "result" job = Some (VNum NPosInf)
    /\ setItem "ac_jobs" (JSON_stringify (jobs s1)) empty_storage = Normal ls1
    /\ persist_jobs_effect (jobs s1) empty_storage = ls1
    /\ mount host_bare ls1 = Normal (s2, ls2)
    /\ jobs s2 = VArr [job']
    /\ prop "result" job' = Some VNull
    /\ jobs s2 <> jobs s1.
Proof.
  eexists _, _, _, _, _, _.
  split; [vm_compute; reflexivity|].
  split; [reflexivity|].
  split; [reflexivity|].
  split; [vm_compute; reflexivity|].
  split; [vm_compute; reflexivity|].
  split; [vm_compute; reflexivity|].
  split; [reflexivity|].
  split; [reflexivity|].
  discriminate.
Qed.

(** C9 on a stored array of 31 jobs. *)
Lemma mount_loads_stored_jobs_unchecked_witness :
  let l := replicate 31 (new_job "stored" 1700000000000%Z 1700000000000%Z VNull) in
  exists s ls',
    mount host_bare (storage_with_jobs (JSON_stringify (VArr l))) = Normal (s, ls')
    /\ jobs s = VArr l
    /\ 30 < length l.
Proof.
  exact (proj2 (mount_loads_stored_jobs_unchecked IntEngine_lawful host_bare)
           1700000000000%Z).
Defined.

(** X3 on a page that injects an override beside the bundler's value,
    and on one that injects none. *)
Lemma resolver_precedence_witness :
  getDefaultApiBase host_both = Normal "https://page.example"
  /\ getDefaultApiBase host_env = Normal "https://build.example".
Proof.
  split.
  - apply (proj1 (resolver_precedence host_both "https://page.example")).
    econstructor; [reflexivity | reflexivity | discriminate].
  - apply (proj2 (resolver_precedence host_env "https://build.example")).
    + intros u [w Hw _ _]. discriminate Hw.
    + econstructor; [reflexivity | reflexivity | reflexivity | reflexivity | discriminate].
Defined.

(** X5 on a storage that holds a key of another script. *)
Lemma persist_effects_keep_other_keys_witness :
  getItem "theme"
    (persist_apiBase_effect "https://api.example"
       (persist_jobs_effect (VArr [] : jsval Z) storage_with_theme))
  = getItem "theme" storage_with_theme
  /\ getItem "ac_api_base" (persist_jobs_effect (VArr [] : jsval Z) storage_with_theme)
     = getItem "ac_api_base" storage_with_theme
  /\ getItem "ac_jobs" (persist_apiBase_effect "https://api.example" storage_with_theme)
     = getItem "ac_jobs" storage_with_theme.
Proof.
  apply (persist_effects_keep_other_keys "theme" "https://api.example"
           (VArr [] : jsval Z) storage_with_theme); discriminate.
Defined.

(** X6 on a first visit with an empty storage. *)
Lemma first_mount_pins_base_witness :
  exists s1 ls1,
    mount (engine := IntEngine.engine) host_bare empty_storage = Normal (s1, ls1)
    /\ forall h2, exists s2 ls2,
         mount (engine := IntEngine.engine) h2 ls1 = Normal (s2, ls2)
         /\ apiBase s2 = apiBase s1.
Proof.
  apply (first_mount_pins_base (engine := IntEngine.engine) host_bare empty_storage);
    reflexivity.
Defined.

(** X7 with a page that injects an override of its own. *)
Lemma set_base_survives_restart_witness :
  apiBase (click_Set (setApiBaseInput "https://api.example" fresh)) = "https://api.example"
  /\ persist_apiBase_effect
       (apiBase (click_Set (setApiBaseInput "https://api.example" fresh))) empty_storage
     = storage_with_base "https://api.example"
  /\ exists s2 ls2,
       mount (engine := IntEngine.engine) host_both (storage_with_base "https://api.example")
       = Normal (s2, ls2)
       /\ apiBase s2 = "https://api.example"
       /\ apiBaseInput s2 = "https://api.example".
Proof.
  apply (set_base_survives_restart fresh "https://api.example" host_both empty_storage
           (storage_with_base "https://api.example")).
  - discriminate.
  - reflexivity.
Defined.

(** X8 on a storage whose every access throws. *)
Lemma mount_without_storage_witness :
  exists d s,
    getDefaultApiBase host_env = Normal d
    /\ mount (engine := IntEngine.engine) host_env blocked_storage = Normal (s, blocked_storage)
    /\ apiBase s = d
    /\ apiBaseInput s = d
    /\ jobs s = VArr [].
Proof.
  apply (mount_without_storage (engine := IntEngine.engine) host_env blocked_storage
           getter_error).
  reflexivity.
Defined.

(** X9 on a storage that holds a text that is not JSON. *)
Lemma mount_overwrites_stored_jobs_witness :
  exists s ls',
    mount (engine := IntEngine.engine) host_bare (storage_with_jobs "oops") = Normal (s, ls')
    /\ getItem "ac_jobs" ls' = Normal (Some "[]")
    /\ jobs s = VArr [].
Proof.
  destruct (mount_overwrites_stored_jobs (engine := IntEngine.engine) host_bare
              (storage_with_jobs "oops") eq_refl eq_refl)
    as (s & ls' & Hm & Hget & Hbad & _).
  exists s, ls'. split; [exact Hm|]. split; [exact Hget|].
  apply (Hbad "oops" (json_syntax_error "oops")); [reflexivity | vm_compute; reflexivity].
Defined.

(** X10 on a refused connection. *)
Lemma submitFeature_sets_response_or_error_witness :
  let s' := setLoading false
              (setError (VStr "TypeError: Failed to fetch") (submit_begin fresh)) in
  loading s' = false
  /\ apiBase s' = apiBase fresh
  /\ apiBaseInput s' = apiBaseInput fresh
  /\ apiToken s' = apiToken fresh
  /\ (response s' = VNull \/ error s' = VNull).
Proof.
  intros s'.
  apply (submitFeature_sets_response_or_error fresh (Throw connection_refused) 1%Z 1%Z s').
  reflexivity.
Defined.

(** X11 on a 200 answer that declares JSON and carries none. *)
Lemma unreadable_answer_is_an_error_witness :
  exists s',
    submitFeature fresh (Normal broken_200) 1%Z 1%Z = Normal s'
    /\ error s' = VStr (String_of_exn (json_syntax_error "oops"))
    /\ response s' = VNull
    /\ jobs s' = jobs fresh
    /\ title s' = title fresh
    /\ description s' = description fresh.
Proof.
  apply (unreadable_answer_is_an_error fresh broken_200 (json_syntax_error "oops") 1%Z 1%Z).
  vm_compute. reflexivity.
Defined.

(** X12 on a content type with a charset parameter. *)
Lemma json_content_type_with_parameters_witness :
  read_data (engine := IntEngine.engine) charset_answer = JSON_parse "[]".
Proof.
  apply (json_content_type_with_parameters charset_answer "" "; charset=utf-8" "[]");
    reflexivity.
Defined.

(** X13 on a failed submission that is cleared and then repeated. *)
Lemma one_request_in_flight_witness :
  exists s',
    run fresh retry_session = Normal s'
    /\ fold_left in_flight retry_session 0 = (if loading s' then 1 else 0)
    /\ fold_left in_flight retry_session 0 <= 1.
Proof.
  apply (one_request_in_flight retry_session fresh 0).
  - reflexivity.
  - vm_compute. reflexivity.
Defined.

(** X15 on a title that is edited while the request is in flight. *)
Lemma title_is_captured_at_submit_witness :
  exists s',
    run fresh [Type_title "Add palindrome checker"; Submit; Type_title "Add anagram checker";
               Settle (setTitle "Add palindrome checker" fresh) (answer (palindrome 1))
                 1%Z 1%Z]
    = Normal s'
    /\ jobs s' = VArr (take 30 [new_job "Add palindrome checker" 1%Z 1%Z generated])
    /\ title s' = ""
    /\ response s' = generated.
Proof.
  exact (proj1 (title_is_captured_at_submit fresh [] "Add palindrome checker"
                  "Add anagram checker" (answer (palindrome 1)) 1%Z 1%Z generated
                  eq_refl (palindrome_succeeds 1))).
Defined.

(** X16 on the first submission of a visit. *)
Lemma newest_job_holds_response_witness :
  exists s' job rest,
    submit_one fresh (palindrome 1) = Normal s'
    /\ jobs s' = VArr (job :: rest)
    /\ prop "title" job = Some (VStr "Add palindrome checker")
    /\ prop "result" job = Some (response s')
    /\ response s' = generated
    /\ click_View job s' = Some s'
    /\ click_View job (click_Clear s') = Some (setResponse generated (click_Clear s')).
Proof.
  exact (newest_job_holds_response fresh [] (palindrome 1) generated
           eq_refl (palindrome_succeeds 1)).
Defined.

(** X17 on a session in which one answer succeeds. *)
Lemma every_job_can_be_viewed_witness :
  exists s l,
    run fresh one_job_session = Normal s
    /\ jobs s = VArr l
    /\ forallb is_job l = true
    /\ (forall j, In j l ->
        exists r,
          click_View j s = Some (setResponse r s)
          /\ forall now, click_Download j now = Some (downloadResult r now))
    /\ as_json (jobs s) = VArr (map as_json l)
    /\ forallb is_job (map as_json l) = true.
Proof.
  apply (every_job_can_be_viewed fresh [] one_job_session); reflexivity.
Defined.

(** X18 on a request with a token. *)
Lemma request_carries_what_was_typed_witness :
  headers (submit_request (setApiToken "s3cret" fresh))
  = [("Content-Type", "application/json"); ("Authorization", "Bearer s3cret")].
Proof.
  apply (proj1 (proj2 (proj2 (request_carries_what_was_typed (setApiToken "s3cret" fresh))))).
  discriminate.
Defined.

(** X19 on a 500 answer whose body is [0]. *)
Lemma falsy_payload_gets_no_banner_witness :
  exists s',
    submitFeature fresh (Normal (json_response 500 (VNum (NFinite 0%Z)))) 1%Z 1%Z = Normal s'
    /\ result_panel s' = None
    /\ error s' = VNum (NFinite 0%Z)
    /\ render_error s' = Text "0".
Proof.
  destruct (falsy_payload_gets_no_banner fresh [] (json_response 500 (VNum (NFinite 0%Z)))
              (VNum (NFinite 0%Z)) 1%Z 1%Z)
    as (s' & Hs' & Hpanel & _ & Hbad).
  - reflexivity.
  - vm_compute. reflexivity.
  - reflexivity.
  - exists s'. split; [exact Hs'|]. split; [exact Hpanel|]. apply Hbad. reflexivity.
Defined.

(** X20 on a refused connection. *)
Lemma error_banner_text_witness :
  exists s',
    submitFeature fresh (Throw connection_refused) 1%Z 1%Z = Normal s'
    /\ render_error s' = Banner (String_of_exn connection_refused).
Proof.
  apply (proj1 (error_banner_text fresh 1%Z 1%Z) connection_refused).
  intros H. vm_compute in H. discriminate H.
Defined.

(** X22 on a result that holds an infinity. *)
Lemma downloaded_file_reads_back_witness :
  let v : jsval Z := VObj [("atoms", VNum NPosInf); ("code", VStr "print(1)")] in
  JSON_parse (content (downloadResult v 1700000000000%Z)) = Normal (as_json v)
  /\ (forall s, response s = v ->
       JSON_parse (copy_text s) = JSON_parse (content (downloadResult v 1700000000000%Z)))
  /\ (numbers_exact v = true ->
      JSON_parse (content (downloadResult v 1700000000000%Z)) = Normal v)
  /\ content (downloadResult v 1700000000000%Z) = PrettyJSON v
  /\ mime_type (downloadResult v 1700000000000%Z) = "application/json".
Proof.
  intros v. apply (downloaded_file_reads_back IntEngine_lawful v 1700000000000%Z).
  reflexivity.
Defined.

(** X23 on two downloads within one millisecond. *)
Lemma download_names_follow_the_clock_witness :
  file_name (downloadResult generated 1700000000000%Z)
  = file_name (downloadResult (VNull : jsval Z) 1700000000000%Z).
Proof.
  apply (proj2 (download_names_follow_the_clock IntEngine_lawful generated VNull
                  1700000000000%Z 1700000000000%Z)).
  reflexivity.
Defined.

(** X24 on a 503 answer with a JSON body. *)
Lemma ping_alert_text_witness :
  ping_alert (Normal (json_response 503 generated)) = JSON_stringify generated.
Proof.
  apply (proj1 (ping_alert_text IntEngine_lawful (json_response 503 generated)) generated);
    reflexivity.
Defined.

(** X14 on a session in which one answer succeeds. *)
Lemma job_list_never_exceeds_30_witness :
  exists s l,
    run fresh one_job_session = Normal s /\ jobs s = VArr l /\ length l <= 30.
Proof.
  apply (job_list_never_exceeds_30 fresh [] one_job_session).
  - reflexivity.
  - cbn. lia.
Defined.

(** X1 on a session in which one answer succeeds. *)
Lemma jobs_through_any_session_witness :
  exists s,
    run fresh one_job_session = Normal s
    /\ jobs s = VArr (fold_left (fun acc j => take 30 (j :: acc))
                               (omap created_by one_job_session) []).
Proof.
  apply (jobs_through_any_session fresh [] one_job_session). reflexivity.
Defined.

Lemma after_huge_reachable : reachable after_huge.
Proof.
  apply (reachable_submit_one fresh huge).
  - eapply (reachable_mount host_bare empty_storage). vm_compute. reflexivity.
  - vm_compute. reflexivity.
Qed.

(** X2 on the state after a submission whose result holds an infinity. *)
Lemma reachable_jobs_reloaded_witness :
  exists s2 ls2,
    mount host_bare (persist_jobs_effect (jobs after_huge) empty_storage) = Normal (s2, ls2)
    /\ jobs s2 = as_json (jobs after_huge)
    /\ (numbers_exact (jobs after_huge) = true -> jobs s2 = jobs after_huge).
Proof.
  eapply (reachable_jobs_reloaded host_bare empty_storage _ after_huge IntEngine_lawful
            after_huge_reachable).
  vm_compute. reflexivity.
Defined.

(** * The documented scenarios *)

(** A 200 answer with generated code: the response is that object, a job
    with the submitted title heads the list, the form is cleared. *)
Example scenario_success :
  exists s',
    submit_one fresh (palindrome 1700000000000) = Normal s'
    /\ response s' = generated
    /\ jobs s' = VArr [VObj [("id", VNum (NFinite 1700000000000%Z));
                             ("title", VStr "Add palindrome checker");
                             ("created_at", VStr "2023-11-14T22:13:20.000Z");
                             ("result", generated)]]
    /\ title s' = "" /\ description s' = "" /\ error s' = VNull /\ loading s' = false.
Proof. eexists. split; [vm_compute; reflexivity|]. repeat split. Qed.

(** A 500 answer with a JSON body: the error is that object, no job is
    added, the form keeps what was typed. *)
Example scenario_server_error :
  let bad := VObj [("error", VStr "bad input")] in
  let typed := setDescription "Ignore case" (setTitle "Add palindrome checker" fresh) in
  exists s',
    submitFeature typed (Normal (json_response 500 bad)) 1%Z 1%Z = Normal s'
    /\ error s' = bad
    /\ response s' = VNull
    /\ jobs s' = VArr []
    /\ title s' = "Add palindrome checker" /\ description s' = "Ignore case"
    /\ loading s' = false.
Proof. eexists. split; [vm_compute; reflexivity|]. repeat split. Qed.

(** A refused connection: the error is the stringified exception. *)
Example scenario_network_error :
  exists s',
    submitFeature fresh (Throw connection_refused) 1%Z 1%Z = Normal s'
    /\ error s' = VStr "TypeError: Failed to fetch"
    /\ jobs s' = VArr []
    /\ loading s' = false.
Proof. eexists. split; [vm_compute; reflexivity|]. repeat split. Qed.

(** The request of the first scenario, with a token. *)
Example scenario_request :
  let typed := setApiToken "s3cret" (setTitle "T" (setApiBase "http://h:9000/" fresh)) in
  url (submit_request typed) = "http://h:9000/feature_request"
  /\ method (submit_request typed) = "POST"
  /\ headers (submit_request typed)
     = [("Content-Type", "application/json"); ("Authorization", "Bearer s3cret")]
  /\ JSON_parse (request_body (submit_request typed))
     = Normal (VObj [("title", VStr "T"); ("description", VStr "")]).
Proof. repeat split; vm_compute; reflexivity. Qed.
